(** * Image search frontend: API service and React components

  A shallow embedding of the client code of the image search
  application: the axios service module [services/api.js], the tabbed
  [App] component and the three form components [ImageUpload],
  [TextSearch] and [CSVUpload].

  Event handlers are functions in a small state-and-log monad: they
  read and update the component's [useState] cells and emit the
  observable actions (toasts, calls of the API service, console
  output, the clearing of a timer, callbacks to the parent).  An [async]
  handler is split at its [await]: the part before it, and the part
  that runs once the awaited promise has settled. *)

From Stdlib Require Import String Ascii List ZArith Bool Lia.
From Stdlib Require Import SpecFloat.
From Stdlib Require Import DecimalString.
Import ListNotations.

Local Open Scope string_scope.
Local Open Scope Z_scope.

(** ** JavaScript values *)

Module JS.

(** The values that reach the code modelled here.  An object is kept
    only through what [String(o)] yields for it. *)
Inductive value : Type :=
| Undefined
| Null
| Bool (b : bool)
| Num (z : Z)
| Str (s : string)
| Obj (repr : string).

Definition string_of_Z (z : Z) : string :=
  NilZero.string_of_int (Z.to_int z).

(** [ToBoolean]. *)
Definition truthy (v : value) : bool :=
  match v with
  | Undefined | Null => false
  | Bool b => b
  | Num z => negb (z =? 0)
  | Str s => negb (s =? "")%string
  | Obj _ => true
  end.

(** [a || b]. *)
Definition or (a b : value) : value :=
  if truthy a then a else b.

(** [ToString], as [new Error(v)] and template literals apply it. *)
Definition ToString (v : value) : string :=
  match v with
  | Undefined => "undefined"
  | Null => "null"
  | Bool true => "true"
  | Bool false => "false"
  | Num z => string_of_Z z
  | Str s => s
  | Obj repr => repr
  end.

(** How an awaited promise settles; a rejection carries the [Error]'s
    [message]. *)
Inductive outcome (A : Type) : Type :=
| Resolved (a : A)
| Rejected (message : string).
Arguments Resolved {A} a.
Arguments Rejected {A} message.

(** White space and line terminators that [String.prototype.trim]
    strips, among the code units below 256. *)
Definition is_space (c : ascii) : bool :=
  let n := nat_of_ascii c in
  (Nat.eqb n 9 || Nat.eqb n 10 || Nat.eqb n 11 || Nat.eqb n 12
   || Nat.eqb n 13 || Nat.eqb n 32 || Nat.eqb n 160)%bool.

Fixpoint trimStart (s : string) : string :=
  match s with
  | EmptyString => EmptyString
  | String c s' => if is_space c then trimStart s' else s
  end.

Fixpoint trimEnd (s : string) : string :=
  match s with
  | EmptyString => EmptyString
  | String c s' =>
      match trimEnd s' with
      | EmptyString => if is_space c then EmptyString else String c EmptyString
      | t => String c t
      end
  end.

Definition trim (s : string) : string := trimEnd (trimStart s).

(** A string made of white space only (the empty one included). *)
Fixpoint blank (s : string) : bool :=
  match s with
  | EmptyString => true
  | String c s' => is_space c && blank s'
  end.

End JS.

(** ** String methods used by the components *)

Module JSText.

(** [toLowerCase] on one code unit below 256: the letters A-Z and the
    capital letters of Latin-1 (192-214 and 216-222) move up by 32. *)
Definition lower_unit (c : ascii) : ascii :=
  let n := nat_of_ascii c in
  if ((65 <=? n) && (n <=? 90)
      || (192 <=? n) && (n <=? 214)
      || (216 <=? n) && (n <=? 222))%nat%bool
  then ascii_of_nat (n + 32)
  else c.

Fixpoint toLowerCase (s : string) : string :=
  match s with
  | EmptyString => EmptyString
  | String c s' => String (lower_unit c) (toLowerCase s')
  end.

(** [s.endsWith(suffix)]. *)
Definition endsWith (s suffix : string) : bool :=
  let n := String.length s in
  let m := String.length suffix in
  ((m <=? n)%nat && (substring (n - m) m s =? suffix)%string)%bool.

End JSText.

(** ** services/api.js *)

Module Api.

Inductive method : Type := GET | POST.

Record file : Type := { name : string; size : Z }.

Inductive body : Type :=
| NoBody
| FormData (fields : list (string * file))
| Json (fields : list (string * JS.value)).

(** What a call of [api.get] or [api.post] sends. *)
Record request : Type := {
  req_method : method;
  url : string;
  req_body : body;
  params : list (string * Z)
}.

Definition post (u : string) (b : body) (ps : list (string * Z)) : request :=
  {| req_method := POST; url := u; req_body := b; params := ps |}.

Definition get (u : string) : request :=
  {| req_method := GET; url := u; req_body := NoBody; params := [] |}.

(** A parameter with a default value: [None] is an omitted argument. *)
Definition default (d : Z) (arg : option Z) : Z :=
  match arg with Some z => z | None => d end.

Definition uploadImageAndSearch (imageFile : file) (topK : option Z) : request :=
  let formData := FormData [("file", imageFile)] in
  post "/upload" formData [("top_k", default 5 topK)].

Definition searchImages (query : string) (topK : option Z) : request :=
  post "/search"
       (Json [("query", JS.Str query); ("top_k", JS.Num (default 5 topK))]) [].

Definition indexImages (imageUrls : list string) (batchSize : option Z) : request :=
  post "/index"
       (Json [("image_urls", JS.Obj (String.concat "," imageUrls));
              ("batch_size", JS.Num (default 10 batchSize))]) [].

Definition getHealthStatus : request := get "/health".

Definition getSystemStats : request := get "/stats".

(** The arguments a caller hands to a function of the service. *)
Record call_args : Type := {
  arg_file : file;
  arg_text : string;
  arg_urls : list string;
  arg_num : option Z
}.

(** The module's named exports, each with the request it issues. *)
Definition exports : list (string * (call_args -> request)) :=
  [ ("uploadImageAndSearch",
      fun a => uploadImageAndSearch (arg_file a) (arg_num a));
    ("searchImages", fun a => searchImages (arg_text a) (arg_num a));
    ("indexImages", fun a => indexImages (arg_urls a) (arg_num a));
    ("getHealthStatus", fun _ => getHealthStatus);
    ("getSystemStats", fun _ => getSystemStats) ].

(** Resolution of [import { name } from '../services/api']: a name the
    module does not export is bound to no function. *)
Fixpoint lookup {A : Type} (n : string) (tbl : list (string * A)) : option A :=
  match tbl with
  | [] => None
  | (k, v) :: tbl' => if (k =? n)%string then Some v else lookup n tbl'
  end.

Definition resolve (n : string) : option (call_args -> request) :=
  lookup n exports.

(** The REST endpoints of the backend. *)
Definition endpoints : list string :=
  ["/upload"; "/search"; "/index"; "/health"; "/stats"].

Definition target (r : request) : method * string :=
  (req_method r, url r).

(** *** The response interceptor *)

Record response_data : Type := { detail : JS.value; message_field : JS.value }.

(** [error.response]: [data] is [None] when the body is [null],
    [undefined] or a primitive, so that [data?.detail] and
    [data?.message] are [undefined]. *)
Record response : Type := { data : option response_data; status : Z }.

Record axios_error : Type := {
  error_response : option response;
  error_request : bool;
  error_message : JS.value
}.

(** [error.response.data?.f]. *)
Definition opt_field (f : response_data -> JS.value) (r : response) : JS.value :=
  match data r with
  | Some d => f d
  | None => JS.Undefined
  end.

(** The rejection handler of [api.interceptors.response.use]: the
    result is the [message] of the [Error] it throws. *)
Definition response_error_interceptor (error : axios_error) : string :=
  match error_response error with
  | Some r =>
      let message :=
        JS.or (JS.or (opt_field detail r) (opt_field message_field r))
              (JS.Str ("Server error: " ++ JS.string_of_Z (status r))) in
      JS.ToString message
  | None =>
      if error_request error then
        "No response from server. Please check your connection."
      else
        JS.ToString (JS.or (error_message error)
                           (JS.Str "An unexpected error occurred"))
  end.

End Api.

(** ** Handlers: component state, closures and observable actions *)

Module UI.

(** The object an image or text search resolves with. *)
Record search_results : Type := {
  similar_images : list string;
  file_name : string;
  file_url : string
}.

(** The calls the components make through the names they import from
    the API service.  What request stands behind a name is the
    service's matter ([Api.resolve]); how the promise of a call settles
    is left to the environment. *)
Inductive api_call : Type :=
| uploadImageAndSearch (imageFile : Api.file)
| searchImagesByText (query : string)
| uploadCSVWithProgress (csvFile : Api.file) (columnName : string)
| getUploadProgress (taskId : string).

(** The name under which a call is imported. *)
Definition imported_name (c : api_call) : string :=
  match c with
  | uploadImageAndSearch _ => "uploadImageAndSearch"
  | searchImagesByText _ => "searchImagesByText"
  | uploadCSVWithProgress _ _ => "uploadCSVWithProgress"
  | getUploadProgress _ => "getUploadProgress"
  end.

Inductive action : Type :=
| toast_error (msg : string)
| toast_success (msg : string)
| console_error (label : string)
| call (c : api_call)
| clearInterval
| preventDefault
| onSearchStart
| onSearchComplete (results : option search_results).

(** A handler created by a render reads the state cells through its
    closure (the values of that render) and queues updates with the
    setters; the updates are applied to the stored state. *)
Definition handler (S A : Type) : Type :=
  S -> S -> A * S * list action.

Definition ret {S A : Type} (a : A) : handler S A :=
  fun _ st => (a, st, []).

Definition bind {S A B : Type} (m : handler S A) (k : A -> handler S B)
  : handler S B :=
  fun closure st =>
    let '(a, st1, log1) := m closure st in
    let '(b, st2, log2) := k a closure st1 in
    (b, st2, (log1 ++ log2)%list).

Definition read {S A : Type} (cell : S -> A) : handler S A :=
  fun closure st => (cell closure, st, []).

Definition update {S : Type} (f : S -> S) : handler S unit :=
  fun _ st => (tt, f st, []).

Definition emit {S : Type} (a : action) : handler S unit :=
  fun _ st => (tt, st, [a]).

(** Run a handler of the render that shows [st]. *)
Definition run {S A : Type} (m : handler S A) (st : S) : S * list action :=
  let '(_, st', log) := m st st in (st', log).

(** Run the rest of an [async] handler, created by the render of
    [closure], on the state stored when its promise settles. *)
Definition resume {S A : Type} (m : handler S A) (closure st : S)
  : S * list action :=
  let '(_, st', log) := m closure st in (st', log).

Definition is_call (a : action) : bool :=
  match a with call _ => true | _ => false end.

Definition is_toast (a : action) : bool :=
  match a with toast_error _ | toast_success _ => true | _ => false end.

Definition is_poll (a : action) : bool :=
  match a with call (getUploadProgress _) => true | _ => false end.

Definition is_clear (a : action) : bool :=
  match a with clearInterval => true | _ => false end.

End UI.

Declare Scope handler_scope.
Delimit Scope handler_scope with handler.
Notation "x <- m ;; k" := (UI.bind m (fun x => k))
  (at level 61, m at next level, right associativity) : handler_scope.
Notation "m ;; k" := (UI.bind m (fun _ => k))
  (at level 61, right associativity) : handler_scope.

(** ** App.js (the tabbed application) *)

Module App.
Import UI.
Local Open Scope handler_scope.

Record state : Type := {
  searchResults : option search_results;
  isLoading : bool;
  activeTab : string
}.

Definition initial : state :=
  {| searchResults := None; isLoading := false; activeTab := "image" |}.

Definition setSearchResults (r : option search_results) : handler state unit :=
  update (fun st => {| searchResults := r;
                       isLoading := isLoading st;
                       activeTab := activeTab st |}).

Definition setIsLoading (b : bool) : handler state unit :=
  update (fun st => {| searchResults := searchResults st;
                       isLoading := b;
                       activeTab := activeTab st |}).

Definition setActiveTab (tab : string) : handler state unit :=
  update (fun st => {| searchResults := searchResults st;
                       isLoading := isLoading st;
                       activeTab := tab |}).

Definition handleSearchComplete (results : option search_results)
  : handler state unit :=
  setSearchResults results ;;
  setIsLoading false.

Definition handleSearchStart : handler state unit :=
  setIsLoading true ;;
  setSearchResults None.

Definition switchTab (tab : string) : handler state unit :=
  loading <- read isLoading ;;
  if negb loading then
    setActiveTab tab ;;
    setSearchResults None
  else ret tt.

(** What the user and the child components can make the application
    do: press one of the three tab buttons, or invoke the two callbacks
    handed to [ImageUpload] and [TextSearch]. *)
Inductive tab_button : Type := ImageTab | TextTab | CsvTab.

Definition tab_of (b : tab_button) : string :=
  match b with
  | ImageTab => "image"
  | TextTab => "text"
  | CsvTab => "csv"
  end.

Inductive event : Type :=
| Click (b : tab_button)
| SearchStart
| SearchComplete (results : option search_results).

Definition step (ev : event) (st : state) : state :=
  fst (run match ev with
           | Click b => switchTab (tab_of b)
           | SearchStart => handleSearchStart
           | SearchComplete r => handleSearchComplete r
           end st).

Inductive reachable : state -> Prop :=
| reach_initial : reachable initial
| reach_step ev st : reachable st -> reachable (step ev st).

(** The parent's reaction to what a child component did. *)
Definition notify (a : action) (st : state) : state :=
  match a with
  | onSearchStart => step SearchStart st
  | onSearchComplete r => step (SearchComplete r) st
  | _ => st
  end.

Definition notify_all (log : list action) (st : state) : state :=
  fold_left (fun s a => notify a s) log st.

(** *** What the page renders below the form *)

Definition has_results (st : state) : bool :=
  match searchResults st with Some _ => true | None => false end.

(** [(searchResults || isLoading) && activeTab !== 'csv']: the results
    section. *)
Definition shows_results (st : state) : bool :=
  ((has_results st || isLoading st)
   && negb (activeTab st =? "csv")%string)%bool.

(** [!searchResults && !isLoading]: the features section. *)
Definition shows_features (st : state) : bool :=
  (negb (has_results st) && negb (isLoading st))%bool.

End App.

(** ** components/ImageUpload.js *)

Module ImageUpload.
Import UI.
Local Open Scope handler_scope.

Record state : Type := {
  selectedImage : option Api.file;
  previewUrl : option string
}.

(** [handleSearch] up to its [await]. *)
Definition handleSearch : handler state unit :=
  image <- read selectedImage ;;
  match image with
  | None => emit (toast_error "Please select an image first")
  | Some imageFile =>
      emit onSearchStart ;;
      emit (call (uploadImageAndSearch imageFile))
  end.

(** The [try] block after the [await], and the [catch] block. *)
Definition handleSearch_settled (o : JS.outcome search_results)
  : handler state unit :=
  match o with
  | JS.Resolved results =>
      emit (onSearchComplete (Some results)) ;;
      emit (toast_success "Search completed successfully!")
  | JS.Rejected message =>
      emit (console_error "Search error:") ;;
      emit (toast_error ("Search failed: " ++ message)) ;;
      emit (onSearchComplete None)
  end.

Definition imports : list string := ["uploadImageAndSearch"].


(** *** Choosing and clearing the image *)

(** The document the component lives in: its state cells, and the
    object URLs that [URL.createObjectURL] has handed out and
    [URL.revokeObjectURL] has not released yet. *)
Record document : Type := {
  cells : state;
  object_urls : list string
}.

Definition loaded : document :=
  {| cells := {| selectedImage := None; previewUrl := None |};
     object_urls := [] |}.

Definition setSelectedImage (v : option Api.file) : handler document unit :=
  update (fun d =>
    {| cells := {| selectedImage := v; previewUrl := previewUrl (cells d) |};
       object_urls := object_urls d |}).

Definition setPreviewUrl (v : option string) : handler document unit :=
  update (fun d =>
    {| cells := {| selectedImage := selectedImage (cells d); previewUrl := v |};
       object_urls := object_urls d |}).

(** [URL.createObjectURL(file)]; [minted] is the URL the browser makes
    up for the file. *)
Definition createObjectURL (file : Api.file) (minted : string)
  : handler document string :=
  update (fun d =>
    {| cells := cells d; object_urls := minted :: object_urls d |}) ;;
  ret minted.

(** [URL.revokeObjectURL(url)]. *)
Definition revokeObjectURL (u : string) : handler document unit :=
  update (fun d =>
    {| cells := cells d;
       object_urls := List.remove string_dec u (object_urls d) |}).

Definition onDrop (acceptedFiles : list Api.file) (minted : string)
  : handler document unit :=
  match acceptedFiles with
  | file :: _ =>
      setSelectedImage (Some file) ;;
      url <- createObjectURL file minted ;;
      setPreviewUrl (Some url)
  | [] => ret tt
  end.

Definition clearImage : handler document unit :=
  setSelectedImage None ;;
  preview <- read (fun d => previewUrl (cells d)) ;;
  match preview with
  | Some u =>
      if JS.truthy (JS.Str u) then
        revokeObjectURL u ;;
        setPreviewUrl None
      else ret tt
  | None => ret tt
  end.

(** [previewUrl] is truthy: the preview, with its buttons, is rendered
    in place of the drop zone. *)
Definition previewing (st : state) : bool :=
  match previewUrl st with
  | Some u => JS.truthy (JS.Str u)
  | None => false
  end.

(** What the user can do with the image: drop files on the drop zone
    (the browser then mints the URL ["blob:" ++ id]), or press one of
    the two buttons that clear the image. *)
Inductive event : Type :=
| Drop (acceptedFiles : list Api.file) (id : string)
| Clear.

Definition blob_url (id : string) : string := "blob:" ++ id.

Definition enabled (ev : event) (d : document) : bool :=
  match ev with
  | Drop _ id =>
      (negb (previewing (cells d))
       && negb (existsb (String.eqb (blob_url id)) (object_urls d)))%bool
  | Clear => previewing (cells d)
  end.

Definition step (ev : event) (d : document) : document :=
  fst (run match ev with
           | Drop files id => onDrop files (blob_url id)
           | Clear => clearImage
           end d).

Inductive reachable : document -> Prop :=
| reach_loaded : reachable loaded
| reach_step ev d :
    reachable d -> enabled ev d = true -> reachable (step ev d).

(** Each image shown has its object URL, and no other URL is kept. *)
Definition tidy (d : document) : Prop :=
  match previewUrl (cells d) with
  | Some u =>
      object_urls d = [u] /\ JS.truthy (JS.Str u) = true /\
      selectedImage (cells d) <> None
  | None => object_urls d = [] /\ selectedImage (cells d) = None
  end.

End ImageUpload.

(** ** components/TextSearch.js *)

Module TextSearch.
Import UI.
Local Open Scope handler_scope.

Record state : Type := { query : string }.

Definition handleSearch : handler state unit :=
  emit preventDefault ;;
  q <- read query ;;
  if negb (JS.truthy (JS.Str (JS.trim q))) then
    emit (toast_error "Please enter a search query")
  else
    emit onSearchStart ;;
    emit (call (searchImagesByText (JS.trim q))).

Definition handleSearch_settled (o : JS.outcome search_results)
  : handler state unit :=
  match o with
  | JS.Resolved results =>
      emit (onSearchComplete (Some results)) ;;
      emit (toast_success "Search completed successfully!")
  | JS.Rejected message =>
      emit (console_error "Text search error:") ;;
      emit (toast_error ("Search failed: " ++ message)) ;;
      emit (onSearchComplete None)
  end.

Definition imports : list string := ["searchImagesByText"].


Definition setQuery (v : string) : handler state unit :=
  update (fun _ => {| query := v |}).

(** [e.target.value] is [value]. *)
Definition handleInputChange (value : string) : handler state unit :=
  setQuery value.

(** [e.key] is [key]; [isLoading] is the property the application
    passes. *)
Definition handleKeyPress (key : string) (isLoading : bool)
  : handler state unit :=
  if ((key =? "Enter")%string && negb isLoading)%bool
  then handleSearch
  else ret tt.

End TextSearch.

(** ** components/CSVUpload.js *)

Module CSVUpload.
Import UI.
Local Open Scope handler_scope.

(** What the progress endpoint reports for a task. *)
Record progress_data : Type := {
  status : string;
  current : Z;
  total : Z;
  current_url : option string;
  errors : list string
}.

(** [task_id] is [None] when the response carries no such field. *)
Record init_response : Type := { task_id : option string }.

Record upload_results : Type := {
  message : string;
  total_urls : Z;
  successful_indexes : Z;
  failed_urls : list string;
  processing_time : option Z
}.

Record state : Type := {
  selectedFile : option Api.file;
  columnName : string;
  isUploading : bool;
  uploadResults : option upload_results;
  showSettings : bool;
  progress : option progress_data;
  taskId : option string
}.

Definition initial : state :=
  {| selectedFile := None; columnName := "url"; isUploading := false;
     uploadResults := None; showSettings := false; progress := None;
     taskId := None |}.

Definition setSelectedFile (v : option Api.file) : handler state unit :=
  update (fun st =>
    {| selectedFile := v; columnName := columnName st;
       isUploading := isUploading st; uploadResults := uploadResults st;
       showSettings := showSettings st; progress := progress st;
       taskId := taskId st |}).

Definition setColumnName (v : string) : handler state unit :=
  update (fun st =>
    {| selectedFile := selectedFile st; columnName := v;
       isUploading := isUploading st; uploadResults := uploadResults st;
       showSettings := showSettings st; progress := progress st;
       taskId := taskId st |}).

Definition setIsUploading (v : bool) : handler state unit :=
  update (fun st =>
    {| selectedFile := selectedFile st; columnName := columnName st;
       isUploading := v; uploadResults := uploadResults st;
       showSettings := showSettings st; progress := progress st;
       taskId := taskId st |}).

Definition setUploadResults (v : option upload_results) : handler state unit :=
  update (fun st =>
    {| selectedFile := selectedFile st; columnName := columnName st;
       isUploading := isUploading st; uploadResults := v;
       showSettings := showSettings st; progress := progress st;
       taskId := taskId st |}).

Definition setShowSettings (v : bool) : handler state unit :=
  update (fun st =>
    {| selectedFile := selectedFile st; columnName := columnName st;
       isUploading := isUploading st; uploadResults := uploadResults st;
       showSettings := v; progress := progress st;
       taskId := taskId st |}).

Definition setProgress (v : option progress_data) : handler state unit :=
  update (fun st =>
    {| selectedFile := selectedFile st; columnName := columnName st;
       isUploading := isUploading st; uploadResults := uploadResults st;
       showSettings := showSettings st; progress := v;
       taskId := taskId st |}).

Definition setTaskId (v : option string) : handler state unit :=
  update (fun st =>
    {| selectedFile := selectedFile st; columnName := columnName st;
       isUploading := isUploading st; uploadResults := uploadResults st;
       showSettings := showSettings st; progress := progress st;
       taskId := v |}).

(** Truthiness of [taskId]: [null] and the empty string are falsy. *)
Definition task_set (id : option string) : bool :=
  match id with
  | None => false
  | Some s => JS.truthy (JS.Str s)
  end.

(** *** The polling effect *)

(** What [setInterval(callback, 2000)] registers: the period, and the
    task identifier the callback's closure holds. *)
Record interval : Type := { polled : string; delay : Z }.

(** The body of [useEffect(..., [taskId, isUploading])]. *)
Definition useEffect_poll (st : state) : option interval :=
  match taskId st with
  | Some id =>
      if (task_set (Some id) && isUploading st)%bool
      then Some {| polled := id; delay := 2000 |}
      else None
  | None => None
  end.

Definition terminal (s : string) : bool :=
  ((s =? "completed")%string || (s =? "error")%string)%bool.

(** The interval's callback up to its [await]. *)
Definition poll (i : interval) : handler state unit :=
  emit (call (getUploadProgress (polled i))).

(** The callback after the [await]: the rest of the [try] block, and
    the [catch] block. *)
Definition poll_settled (o : JS.outcome progress_data) : handler state unit :=
  match o with
  | JS.Resolved progressData =>
      setProgress (Some progressData) ;;
      if terminal (status progressData) then
        setIsUploading false ;;
        emit clearInterval ;;
        if (status progressData =? "completed")%string then
          let successCount :=
            current progressData - Z.of_nat (length (errors progressData)) in
          setUploadResults (Some
            {| message :=
                 "Processing completed! " ++ JS.string_of_Z successCount
                 ++ "/" ++ JS.string_of_Z (total progressData)
                 ++ " images indexed successfully.";
               total_urls := total progressData;
               successful_indexes := successCount;
               failed_urls := errors progressData;
               processing_time := None |}) ;;
          emit (toast_success
                  ("Successfully indexed " ++ JS.string_of_Z successCount
                   ++ " images!"))
        else
          emit (toast_error "Upload failed")
      else ret tt
  | JS.Rejected _ =>
      emit (console_error "Error fetching progress:")
  end.

(** *** Handlers *)

Definition onDrop (acceptedFiles : list Api.file) : handler state unit :=
  match acceptedFiles with
  | file :: _ =>
      setSelectedFile (Some file) ;;
      setUploadResults None ;;
      setProgress None ;;
      setTaskId None
  | [] => ret tt
  end.

(** [handleUpload] up to its [await]. *)
Definition handleUpload : handler state unit :=
  selected <- read selectedFile ;;
  match selected with
  | None => emit (toast_error "Please select a file first")
  | Some file =>
      column <- read columnName ;;
      if negb (JS.truthy (JS.Str (JS.trim column))) then
        emit (toast_error "Please specify the column name containing URLs")
      else
        setIsUploading true ;;
        setUploadResults None ;;
        setProgress None ;;
        emit (call (uploadCSVWithProgress file (JS.trim column)))
  end.

Definition handleUpload_settled (o : JS.outcome init_response)
  : handler state unit :=
  match o with
  | JS.Resolved initResponse =>
      setTaskId (task_id initResponse) ;;
      emit (toast_success "Upload started! Processing images...")
  | JS.Rejected message =>
      emit (console_error "CSV upload error:") ;;
      emit (toast_error ("Upload failed: " ++ message)) ;;
      setIsUploading false
  end.

Definition clearFile : handler state unit :=
  setSelectedFile None ;;
  setUploadResults None ;;
  setProgress None ;;
  setTaskId None.

Definition toggleSettings : handler state unit :=
  shown <- read showSettings ;;
  setShowSettings (negb shown).

(** *** The progress bar: arithmetic on doubles

    JavaScript numbers are IEEE 754 binary64 values: 53 bits of
    precision, exponents below 1024, rounding to nearest with ties to
    even. *)
Definition prec : Z := 53.
Definition emax : Z := 1024.

(** The double an integer count of the JSON report denotes: the nearest
    one, [Infinity] beyond the range. *)
Definition number (z : Z) : spec_float := binary_normalize prec emax z 0 false.

(** [x / y]: a zero divisor gives [Infinity] or [NaN]. *)
Definition divide (x y : spec_float) : spec_float := SFdiv prec emax x y.

(** [x * y]. *)
Definition times (x y : spec_float) : spec_float := SFmul prec emax x y.

(** [x === y] on numbers: the two zeros are equal, [NaN] equals
    nothing. *)
Definition strict_equal (x y : spec_float) : bool := SFeqb x y.

(** [Math.round]: the integer nearest to the double, a half rounding
    up, that is the floor of [x + 1/2] taken exactly.  [None] stands for
    [NaN] and the infinities, which [Math.round] returns unchanged. *)
Definition Math_round (x : spec_float) : option Z :=
  match x with
  | S754_zero _ => Some 0
  | S754_finite s m e =>
      let v := if s then Zneg m else Zpos m in
      Some (if 0 <=? e then v * 2 ^ e
            else (2 * v + 2 ^ (- e)) / 2 ^ (1 - e))
  | S754_infinity _ | S754_nan => None
  end.

(** The result is [None] when it is [NaN] or infinite. *)
Definition getProgressPercentage (st : state) : option Z :=
  match progress st with
  | None => Some 0
  | Some p =>
      if strict_equal (number (total p)) (number 0) then Some 0
      else Math_round (times (divide (number (current p)) (number (total p)))
                             (number 100))
  end.

(** A double that is a zero, or positive and at most the integer [B]:
    [m * 2^e <= B] with [e <= 0], written without fractions. *)
Definition at_most (B : Z) (f : spec_float) : Prop :=
  match f with
  | S754_zero _ => True
  | S754_finite false m e => e <= 0 /\ Zpos m <= B * 2 ^ (- e)
  | _ => False
  end.

(** *** The "Upload Results" section *)

(** [failed_urls.slice(0, 10)]. *)
Definition listed_failed_urls (r : upload_results) : list string :=
  firstn 10 (failed_urls r).

Definition imports : list string :=
  ["uploadCSVWithProgress"; "getUploadProgress"].


(** *** The mounted component: renders, the timer and pending requests *)

(** The browser's timer of the current polling effect: [rendered] is
    the state of the render whose effect registered it, which the
    callback's closure sees; [since] is the time of its registration or
    of its latest tick. *)
Record timer : Type := {
  handle : nat;
  registered : interval;
  rendered : state;
  since : Z
}.

(** A request whose promise has not settled yet, with the state of the
    render whose closure awaits it and, for a poll, the handle of the
    interval that this closure names [interval]. *)
Record pending : Type := {
  awaited : api_call;
  closure : state;
  owner : option nat
}.

Record runtime : Type := {
  component : state;
  clock : Z;
  active : option timer;
  next_handle : nat;
  inflight : list pending
}.

Definition mount : runtime :=
  {| component := initial; clock := 0; active := None;
     next_handle := 0%nat; inflight := [] |}.

Inductive event : Type :=
| Elapse (ms : Z)
| Tick
| Drop (acceptedFiles : list Api.file)
| ClickUpload
| ClickClear
| ClickSettings
| TypeColumn (text : string)
| UploadSettled (n : nat) (o : JS.outcome init_response)
| PollSettled (n : nat) (o : JS.outcome progress_data).

Definition option_string_eqb (a b : option string) : bool :=
  match a, b with
  | Some x, Some y => (x =? y)%string
  | None, None => true
  | _, _ => false
  end.

(** The dependency array [[taskId, isUploading]] is unchanged. *)
Definition same_deps (st st' : state) : bool :=
  (option_string_eqb (taskId st) (taskId st')
   && Bool.eqb (isUploading st) (isUploading st'))%bool.

(** Commit the render of [st'] after the render of [st]: when a
    dependency changed, the cleanup clears the old interval and the
    effect runs again. *)
Definition commit (st st' : state) (rt : runtime) : runtime :=
  if same_deps st st' then
    {| component := st'; clock := clock rt; active := active rt;
       next_handle := next_handle rt; inflight := inflight rt |}
  else
    match useEffect_poll st' with
    | Some i =>
        {| component := st'; clock := clock rt;
           active := Some {| handle := next_handle rt; registered := i;
                             rendered := st'; since := clock rt |};
           next_handle := S (next_handle rt); inflight := inflight rt |}
    | None =>
        {| component := st'; clock := clock rt; active := None;
           next_handle := next_handle rt; inflight := inflight rt |}
    end.

(** The requests a handler started, awaited by closures of [st]. *)
Fixpoint started (st : state) (h : option nat) (log : list action)
  : list pending :=
  match log with
  | [] => []
  | call c :: log' =>
      {| awaited := c; closure := st; owner := h |} :: started st h log'
  | _ :: log' => started st h log'
  end.

Fixpoint remove_nth {A : Type} (n : nat) (l : list A) : list A :=
  match n, l with
  | _, [] => []
  | O, _ :: l' => l'
  | S n', x :: l' => x :: remove_nth n' l'
  end.

(** [clearInterval(h)]. *)
Definition clear (h : option nat) (t : option timer) : option timer :=
  match h, t with
  | Some n, Some tm => if Nat.eqb n (handle tm) then None else t
  | _, _ => t
  end.

Definition has_file (st : state) : bool :=
  match selectedFile st with Some _ => true | None => false end.

(** The events the rendered page, the timer and the network allow. *)
Definition enabled (ev : event) (rt : runtime) : bool :=
  let st := component rt in
  match ev with
  | Elapse ms =>
      (0 <? ms) &&
      match active rt with
      | Some t => clock rt + ms <=? since t + delay (registered t)
      | None => true
      end
  | Tick =>
      match active rt with
      | Some t => clock rt =? since t + delay (registered t)
      | None => false
      end
  | Drop _ => negb (has_file st)
  | ClickUpload | ClickClear | ClickSettings =>
      has_file st && negb (isUploading st)
  | TypeColumn _ =>
      has_file st && showSettings st && negb (isUploading st)
  | UploadSettled n _ =>
      match nth_error (inflight rt) n with
      | Some {| awaited := uploadCSVWithProgress _ _ |} => true
      | _ => false
      end
  | PollSettled n _ =>
      match nth_error (inflight rt) n with
      | Some {| awaited := getUploadProgress _ |} => true
      | _ => false
      end
  end%bool.

(** An event handler of the current render runs, then React renders. *)
Definition handle_event (h : handler state unit) (rt : runtime)
  : runtime * list action :=
  let st := component rt in
  let '(st', log) := run h st in
  let rt' :=
    {| component := st; clock := clock rt; active := active rt;
       next_handle := next_handle rt;
       inflight := (inflight rt ++ started st None log)%list |} in
  (commit st st' rt', log).

Definition step (ev : event) (rt : runtime) : runtime * list action :=
  let st := component rt in
  match ev with
  | Elapse ms =>
      ({| component := st; clock := clock rt + ms; active := active rt;
          next_handle := next_handle rt; inflight := inflight rt |}, [])
  | Tick =>
      match active rt with
      | Some t =>
          let '(_, log) := resume (poll (registered t)) (rendered t) st in
          ({| component := st; clock := clock rt;
              active := Some {| handle := handle t;
                                registered := registered t;
                                rendered := rendered t;
                                since := clock rt |};
              next_handle := next_handle rt;
              inflight := (inflight rt
                           ++ started (rendered t) (Some (handle t)) log)%list |},
           log)
      | None => (rt, [])
      end
  | Drop files => handle_event (onDrop files) rt
  | ClickUpload => handle_event handleUpload rt
  | ClickClear => handle_event clearFile rt
  | ClickSettings => handle_event toggleSettings rt
  | TypeColumn text => handle_event (setColumnName text) rt
  | UploadSettled n o =>
      match nth_error (inflight rt) n with
      | Some p =>
          let '(st', log) := resume (handleUpload_settled o) (closure p) st in
          (commit st st'
             {| component := st; clock := clock rt; active := active rt;
                next_handle := next_handle rt;
                inflight := remove_nth n (inflight rt) |}, log)
      | None => (rt, [])
      end
  | PollSettled n o =>
      match nth_error (inflight rt) n with
      | Some p =>
          let '(st', log) := resume (poll_settled o) (closure p) st in
          let cleared :=
            if existsb is_clear log
            then clear (owner p) (active rt) else active rt in
          (commit st st'
             {| component := st; clock := clock rt; active := cleared;
                next_handle := next_handle rt;
                inflight := remove_nth n (inflight rt) |}, log)
      | None => (rt, [])
      end
  end.

(** Run a sequence of events; [None] when one of them is not enabled. *)
Fixpoint exec (evs : list event) (rt : runtime)
  : option (runtime * list action) :=
  match evs with
  | [] => Some (rt, [])
  | ev :: evs' =>
      if enabled ev rt then
        let '(rt1, log1) := step ev rt in
        match exec evs' rt1 with
        | Some (rt2, log2) => Some (rt2, (log1 ++ log2)%list)
        | None => None
        end
      else None
  end.

Inductive reachable : runtime -> Prop :=
| reach_mount : reachable mount
| reach_step ev rt :
    reachable rt -> enabled ev rt = true -> reachable (fst (step ev rt)).

(** *** The file row and the list of failed URLs *)

(** The three emoji of [getFileIcon]: the page facing up, the bar
    chart and the file folder. *)
Inductive icon : Type := Document | Chart | Folder.

Definition getFileIcon (filename : string) : icon :=
  if JSText.endsWith (JSText.toLowerCase filename) ".csv" then Document
  else if (JSText.endsWith (JSText.toLowerCase filename) ".xlsx"
           || JSText.endsWith (JSText.toLowerCase filename) ".xls")%bool
       then Chart
       else Folder.

(** The number in the line "... and n more", when the line is
    rendered. *)
Definition more_failed_urls (r : upload_results) : option Z :=
  if (10 <? length (failed_urls r))%nat
  then Some (Z.of_nat (length (failed_urls r)) - 10)
  else None.

(** The timer that is set is the one the effect asks for. *)
Definition timer_matches (rt : runtime) : Prop :=
  option_map registered (active rt) = useEffect_poll (component rt).

(** Time never runs past the instant at which the timer is due. *)
Definition timer_due (rt : runtime) : Prop :=
  match active rt with
  | Some t => since t <= clock rt <= since t + delay (registered t)
  | None => True
  end.

End CSVUpload.

(** ** components/SearchResults.js (the one that takes [searchType]) *)

Module SearchResults.
Import UI.

(** Which of the three [return]s renders, with the heading it shows
    and, for the grid, the number of cards.  A response is taken to
    carry its [similar_images] array: one without the field, which
    renders as an empty one, is not represented. *)
Inductive view : Type :=
| Loading (heading : string)
| Empty (hint : string)
| Grid (heading : string) (cards : nat).

Definition render (results : option search_results) (isLoading : bool)
  (searchType : string) : view :=
  if isLoading then
    Loading (if (searchType =? "image")%string
             then "Analyzing Image..." else "Searching Images...")
  else
    match results with
    | Some r =>
        if (length (similar_images r) =? 0)%nat then
          Empty (if (searchType =? "image")%string
                 then "No similar images found. Try uploading a different image."
                 else "No matching images found. Try a different search query.")
        else
          Grid (if (searchType =? "text")%string
                then "Text Search Results" else "Similar Images Found")
               (length (similar_images r))
    | None =>
        Empty (if (searchType =? "image")%string
               then "No similar images found. Try uploading a different image."
               else "No matching images found. Try a different search query.")
    end.

End SearchResults.

(** ** The page below the form *)

Module Page.

(** The results section of the application, when it is rendered. *)
Definition results_section (st : App.state) : option SearchResults.view :=
  if App.shows_results st then
    Some (SearchResults.render (App.searchResults st) (App.isLoading st)
                               (App.activeTab st))
  else None.

End Page.

(** * Properties *)

(** ** JavaScript helpers *)

Lemma trimStart_blank (s : string) :
  JS.blank s = true -> JS.trimStart s = "".
Proof.
  induction s as [|c s IH]; simpl; [reflexivity|].
  intros H. apply andb_true_iff in H as [Hc Hs].
  rewrite Hc. now apply IH.
Qed.

Lemma trim_blank (s : string) : JS.blank s = true -> JS.trim s = "".
Proof.
  intros H. unfold JS.trim. now rewrite trimStart_blank.
Qed.

Lemma trimEnd_empty (s : string) : JS.trimEnd s = "" -> JS.blank s = true.
Proof.
  induction s as [|c s IH]; simpl; [reflexivity|].
  destruct (JS.trimEnd s) eqn:E.
  - destruct (JS.is_space c); [intros _; now rewrite IH | discriminate].
  - discriminate.
Qed.

Lemma trimStart_head (s : string) :
  match JS.trimStart s with
  | EmptyString => JS.blank s = true
  | String c _ => JS.is_space c = false
  end.
Proof.
  induction s as [|c s IH]; simpl; [reflexivity|].
  destruct (JS.is_space c) eqn:E; simpl; [|exact E].
  destruct (JS.trimStart s); [exact IH | exact IH].
Qed.

(** [trim] yields the empty string on the strings of white space, and
    on no other. *)
Lemma trim_empty_iff_blank (s : string) :
  JS.trim s = "" <-> JS.blank s = true.
Proof.
  split; [|apply trim_blank].
  unfold JS.trim. intros H.
  pose proof (trimStart_head s) as Hh.
  destruct (JS.trimStart s) as [|c t] eqn:E; [exact Hh|].
  apply trimEnd_empty in H. simpl in H.
  rewrite Hh in H. discriminate.
Qed.

Lemma falsy_trim_iff_blank (s : string) :
  negb (JS.truthy (JS.Str (JS.trim s))) = true <-> JS.blank s = true.
Proof.
  rewrite <- trim_empty_iff_blank. simpl.
  rewrite negb_involutive. apply String.eqb_eq.
Qed.

(** ** services/api.js *)

Lemma lookup_in {A : Type} (n : string) (tbl : list (string * A)) (v : A) :
  Api.lookup n tbl = Some v -> In (n, v) tbl.
Proof.
  induction tbl as [|[k w] tbl IH]; simpl; [discriminate|].
  destruct (String.eqb_spec k n) as [->|_].
  - intros [= ->]. now left.
  - intros H. right. now apply IH.
Qed.

Lemma exports_target_endpoints (n : string) (f : Api.call_args -> Api.request)
  (a : Api.call_args) :
  In (n, f) Api.exports -> In (Api.url (f a)) Api.endpoints.
Proof.
  unfold Api.exports. simpl.
  intros [H|[H|[H|[H|[H|[]]]]]]; inversion H; subst; simpl; tauto.
Qed.

(** Of the names the components import, the service defines
    [uploadImageAndSearch] only. *)
Lemma imports_defined_by_the_service :
  map (fun n => (n, match Api.resolve n with Some _ => true | None => false end))
      (ImageUpload.imports ++ TextSearch.imports ++ CSVUpload.imports)%list
  = [("uploadImageAndSearch", true); ("searchImagesByText", false);
     ("uploadCSVWithProgress", false); ("getUploadProgress", false)].
Proof. reflexivity. Qed.

(** The method and the path of each of the five functions. *)
Lemma service_functions_targets :
  (forall imageFile topK,
      Api.target (Api.uploadImageAndSearch imageFile topK)
      = (Api.POST, "/upload")) /\
  (forall query topK,
      Api.target (Api.searchImages query topK) = (Api.POST, "/search")) /\
  (forall imageUrls batchSize,
      Api.target (Api.indexImages imageUrls batchSize)
      = (Api.POST, "/index")) /\
  Api.target Api.getHealthStatus = (Api.GET, "/health") /\
  Api.target Api.getSystemStats = (Api.GET, "/stats").
Proof. repeat split. Qed.

(** C5, amended.  The message of the [Error] the response interceptor
    throws, read off the fields of the error.  With a response: the
    string form of [data.detail] when that is truthy; else the string
    form of [data.message] when that is truthy; else ["Server error: "]
    and the status code, which is also the message when the body has no
    fields.  Without a response but with a request: the fixed "No
    response" text.  Otherwise the original message when it is truthy,
    else ["An unexpected error occurred"]. *)
Theorem interceptor_message_by_truthiness (error : Api.axios_error) :
  (forall r d,
      Api.error_response error = Some r -> Api.data r = Some d ->
      JS.truthy (Api.detail d) = true ->
      Api.response_error_interceptor error = JS.ToString (Api.detail d)) /\
  (forall r d,
      Api.error_response error = Some r -> Api.data r = Some d ->
      JS.truthy (Api.detail d) = false ->
      JS.truthy (Api.message_field d) = true ->
      Api.response_error_interceptor error = JS.ToString (Api.message_field d)) /\
  (forall r d,
      Api.error_response error = Some r -> Api.data r = Some d ->
      JS.truthy (Api.detail d) = false ->
      JS.truthy (Api.message_field d) = false ->
      Api.response_error_interceptor error
      = "Server error: " ++ JS.string_of_Z (Api.status r)) /\
  (forall r,
      Api.error_response error = Some r -> Api.data r = None ->
      Api.response_error_interceptor error
      = "Server error: " ++ JS.string_of_Z (Api.status r)) /\
  (Api.error_response error = None -> Api.error_request error = true ->
   Api.response_error_interceptor error
   = "No response from server. Please check your connection.") /\
  (Api.error_response error = None -> Api.error_request error = false ->
   JS.truthy (Api.error_message error) = true ->
   Api.response_error_interceptor error = JS.ToString (Api.error_message error)) /\
  (Api.error_response error = None -> Api.error_request error = false ->
   JS.truthy (Api.error_message error) = false ->
   Api.response_error_interceptor error = "An unexpected error occurred").
Proof.
  unfold Api.response_error_interceptor, Api.opt_field, JS.or.
  split; [|split; [|split; [|split; [|split; [|split]]]]].
  - intros r d -> -> H. cbv zeta. rewrite H. cbv iota. now rewrite H.
  - intros r d -> -> H1 H2. cbv zeta. rewrite H1. cbv iota. now rewrite H2.
  - intros r d -> -> H1 H2. cbv zeta. rewrite H1. cbv iota. now rewrite H2.
  - intros r -> ->. reflexivity.
  - intros -> ->. reflexivity.
  - intros -> -> H. now rewrite H.
  - intros -> -> H. now rewrite H.
Qed.

Lemma interceptor_message_by_truthiness_witness :
  let d := {| Api.detail := JS.Str "Unsupported file type";
              Api.message_field := JS.Undefined |} in
  let r := {| Api.data := Some d; Api.status := 415 |} in
  Api.response_error_interceptor
    {| Api.error_response := Some r; Api.error_request := true;
       Api.error_message := JS.Str "Request failed with status code 415" |}
  = "Unsupported file type".
Proof.
  intros d r.
  destruct (interceptor_message_by_truthiness
              {| Api.error_response := Some r; Api.error_request := true;
                 Api.error_message := JS.Str "Request failed with status code 415" |})
    as (H & _).
  apply (H r d); reflexivity.
Defined.

(** C5, the counterexample.  The response carries a [detail], the
    empty string, and a [message]: [||] passes over the falsy [detail],
    and the message of the error is [data.message], not [data.detail]. *)
Lemma interceptor_skips_empty_detail :
  let d := {| Api.detail := JS.Str ""; Api.message_field := JS.Str "Bad file" |} in
  let error :=
    {| Api.error_response := Some {| Api.data := Some d; Api.status := 400 |};
       Api.error_request := true;
       Api.error_message := JS.Str "Request failed with status code 400" |} in
  Api.detail d <> JS.Undefined /\ Api.detail d <> JS.Null /\
  Api.response_error_interceptor error = "Bad file" /\
  Api.response_error_interceptor error <> JS.ToString (Api.detail d).
Proof.
  intros d error. repeat split; try discriminate.
Qed.

Example interceptor_status_fallback :
  Api.response_error_interceptor
    {| Api.error_response := Some {| Api.data := None; Api.status := 502 |};
       Api.error_request := true;
       Api.error_message := JS.Str "Request failed with status code 502" |}
  = "Server error: 502".
Proof. reflexivity. Qed.

(** ** App.js *)

Lemma step_activeTab (ev : App.event) (st : App.state) :
  App.activeTab (App.step ev st) = App.activeTab st \/
  exists b, App.activeTab (App.step ev st) = App.tab_of b.
Proof.
  destruct ev as [b| |r]; destruct st as [res [|] tab]; cbn; eauto.
Qed.

Lemma tab_of_known (b : App.tab_button) :
  In (App.tab_of b) ["image"; "text"; "csv"].
Proof. destruct b; simpl; tauto. Qed.

(** C7.  [switchTab] does nothing while a search is loading; otherwise
    it makes the requested tab the active one and resets
    [searchResults] to [null].  In every reachable state of the
    application the active tab is ['image'], ['text'] or ['csv']. *)
Theorem switchTab_respects_loading :
  (forall st tab,
      App.isLoading st = true ->
      UI.run (App.switchTab tab) st = (st, [])) /\
  (forall st tab,
      App.isLoading st = false ->
      UI.run (App.switchTab tab) st
      = ({| App.searchResults := None; App.isLoading := false;
            App.activeTab := tab |}, [])) /\
  (forall st,
      App.reachable st -> In (App.activeTab st) ["image"; "text"; "csv"]).
Proof.
  repeat split.
  - intros [res loading tab0] tab H; simpl in H; subst. reflexivity.
  - intros [res loading tab0] tab H; simpl in H; subst. reflexivity.
  - intros st H. induction H as [|ev st _ IH].
    + simpl; tauto.
    + destruct (step_activeTab ev st) as [->|[b ->]];
        [exact IH | apply tab_of_known].
Qed.

Lemma switchTab_respects_loading_witness :
  UI.run (App.switchTab "csv")
         {| App.searchResults := None; App.isLoading := true;
            App.activeTab := "text" |}
  = ({| App.searchResults := None; App.isLoading := true;
        App.activeTab := "text" |}, []) /\
  UI.run (App.switchTab "csv") App.initial
  = ({| App.searchResults := None; App.isLoading := false;
        App.activeTab := "csv" |}, []) /\
  In (App.activeTab (App.step (App.Click App.TextTab) App.initial))
     ["image"; "text"; "csv"].
Proof.
  destruct switchTab_respects_loading as (H1 & H2 & H3).
  split; [|split].
  - apply H1. reflexivity.
  - apply H2. reflexivity.
  - apply H3. apply App.reach_step, App.reach_initial.
Defined.

(** ** Guards of the form handlers *)

(** C9.  The guards of the three forms return before anything else
    happens.  With no image selected, with an empty or white-space-only
    query, with no file selected or with a blank column name, the
    handler shows its error toast and does nothing else: it calls no
    function of the API service, leaves the state of its component as
    it was, and invokes no callback of the application, whose
    [isLoading] and [searchResults] therefore stay as they were. *)
Theorem guards_stop_before_any_request :
  (forall st app,
      ImageUpload.selectedImage st = None ->
      UI.run ImageUpload.handleSearch st
      = (st, [UI.toast_error "Please select an image first"]) /\
      existsb UI.is_call (snd (UI.run ImageUpload.handleSearch st)) = false /\
      App.notify_all (snd (UI.run ImageUpload.handleSearch st)) app = app) /\
  (forall st app,
      JS.blank (TextSearch.query st) = true ->
      UI.run TextSearch.handleSearch st
      = (st, [UI.preventDefault; UI.toast_error "Please enter a search query"]) /\
      existsb UI.is_call (snd (UI.run TextSearch.handleSearch st)) = false /\
      App.notify_all (snd (UI.run TextSearch.handleSearch st)) app = app) /\
  (forall st,
      CSVUpload.selectedFile st = None ->
      UI.run CSVUpload.handleUpload st
      = (st, [UI.toast_error "Please select a file first"]) /\
      existsb UI.is_call (snd (UI.run CSVUpload.handleUpload st)) = false) /\
  (forall st file,
      CSVUpload.selectedFile st = Some file ->
      JS.blank (CSVUpload.columnName st) = true ->
      UI.run CSVUpload.handleUpload st
      = (st, [UI.toast_error "Please specify the column name containing URLs"]) /\
      existsb UI.is_call (snd (UI.run CSVUpload.handleUpload st)) = false).
Proof.
  split; [|split; [|split]].
  - intros [img url] app H; simpl in H; subst.
    repeat split.
  - intros [q] app H; simpl in H.
    apply falsy_trim_iff_blank in H.
    unfold UI.run, TextSearch.handleSearch, UI.bind, UI.read, UI.emit; simpl.
    simpl in H. rewrite H. repeat split.
  - intros st H.
    unfold UI.run, CSVUpload.handleUpload, UI.bind, UI.read; simpl.
    rewrite H. repeat split.
  - intros st file Hf Hc.
    apply falsy_trim_iff_blank in Hc.
    unfold UI.run, CSVUpload.handleUpload, UI.bind, UI.read; simpl.
    rewrite Hf. simpl. simpl in Hc. rewrite Hc. repeat split.
Qed.

Lemma guards_stop_before_any_request_witness :
  UI.run TextSearch.handleSearch {| TextSearch.query := "   " |}
  = ({| TextSearch.query := "   " |},
     [UI.preventDefault; UI.toast_error "Please enter a search query"]) /\
  UI.run ImageUpload.handleSearch
         {| ImageUpload.selectedImage := None; ImageUpload.previewUrl := None |}
  = ({| ImageUpload.selectedImage := None; ImageUpload.previewUrl := None |},
     [UI.toast_error "Please select an image first"]) /\
  UI.run CSVUpload.handleUpload CSVUpload.initial
  = (CSVUpload.initial, [UI.toast_error "Please select a file first"]) /\
  UI.run CSVUpload.handleUpload
         {| CSVUpload.selectedFile := Some {| Api.name := "a.csv"; Api.size := 9 |};
            CSVUpload.columnName := " ";
            CSVUpload.isUploading := false;
            CSVUpload.uploadResults := None;
            CSVUpload.showSettings := true;
            CSVUpload.progress := None;
            CSVUpload.taskId := None |}
  = ({| CSVUpload.selectedFile := Some {| Api.name := "a.csv"; Api.size := 9 |};
        CSVUpload.columnName := " ";
        CSVUpload.isUploading := false;
        CSVUpload.uploadResults := None;
        CSVUpload.showSettings := true;
        CSVUpload.progress := None;
        CSVUpload.taskId := None |},
     [UI.toast_error "Please specify the column name containing URLs"]).
Proof.
  destruct guards_stop_before_any_request as (H1 & H2 & H3 & H4).
  split; [|split; [|split]].
  - apply (H2 {| TextSearch.query := "   " |} App.initial). reflexivity.
  - apply (H1 {| ImageUpload.selectedImage := None;
                 ImageUpload.previewUrl := None |} App.initial). reflexivity.
  - apply (H3 CSVUpload.initial). reflexivity.
  - eapply H4; reflexivity.
Defined.

(** ** Failed requests *)

Lemma same_deps_refl (st : CSVUpload.state) : CSVUpload.same_deps st st = true.
Proof.
  unfold CSVUpload.same_deps.
  destruct (CSVUpload.taskId st), (CSVUpload.isUploading st); simpl;
    rewrite ?String.eqb_refl; reflexivity.
Qed.

(** C4 as stated fails for the progress polls.  With a job in
    progress, so that the polling effect is active, a poll that is
    rejected with "Network Error" is written to the console and no
    toast is shown. *)
Example polling_failure_is_only_logged :
  let job :=
    {| CSVUpload.selectedFile := Some {| Api.name := "urls.csv"; Api.size := 120 |};
       CSVUpload.columnName := "url";
       CSVUpload.isUploading := true;
       CSVUpload.uploadResults := None;
       CSVUpload.showSettings := false;
       CSVUpload.progress := None;
       CSVUpload.taskId := Some "task-1" |} in
  let after :=
    UI.resume (CSVUpload.poll_settled (JS.Rejected "Network Error")) job job in
  CSVUpload.useEffect_poll job
  = Some {| CSVUpload.polled := "task-1"; CSVUpload.delay := 2000 |} /\
  snd after = [UI.console_error "Error fetching progress:"] /\
  existsb UI.is_toast (snd after) = false.
Proof. repeat split. Qed.

(** C4, as the code has it.  A rejected image search, text search or
    CSV upload request ends in [toast.error] with a fixed prefix
    followed by the error's message.  A rejected progress poll is not
    shown to the user: it is written to the console, no toast appears,
    and the state of the component and its timer stay as they were, so
    the polling goes on. *)
Theorem request_failures_reach_toast_or_console :
  (forall closure st message,
      UI.resume (ImageUpload.handleSearch_settled (JS.Rejected message))
                closure st
      = (st, [UI.console_error "Search error:";
              UI.toast_error ("Search failed: " ++ message);
              UI.onSearchComplete None])) /\
  (forall closure st message,
      UI.resume (TextSearch.handleSearch_settled (JS.Rejected message))
                closure st
      = (st, [UI.console_error "Text search error:";
              UI.toast_error ("Search failed: " ++ message);
              UI.onSearchComplete None])) /\
  (forall closure st message,
      snd (UI.resume (CSVUpload.handleUpload_settled (JS.Rejected message))
                     closure st)
      = [UI.console_error "CSV upload error:";
         UI.toast_error ("Upload failed: " ++ message)]) /\
  (forall closure st message,
      UI.resume (CSVUpload.poll_settled (JS.Rejected message)) closure st
      = (st, [UI.console_error "Error fetching progress:"])) /\
  (forall rt n message,
      let rt' := fst (CSVUpload.step (CSVUpload.PollSettled n (JS.Rejected message)) rt) in
      CSVUpload.component rt' = CSVUpload.component rt /\
      CSVUpload.active rt' = CSVUpload.active rt).
Proof.
  do 4 (split; [reflexivity|]).
  intros rt n message rt'. subst rt'. simpl.
  destruct (nth_error (CSVUpload.inflight rt) n); [|split; reflexivity].
  unfold CSVUpload.commit; simpl.
  rewrite same_deps_refl. split; reflexivity.
Qed.

(** ** A completed job *)

Lemma firstn_length_le {A : Type} (n : nat) (l : list A) :
  (length (firstn n l) <= n)%nat.
Proof.
  revert l. induction n as [|n IH]; intros [|x l]; simpl; try lia.
  specialize (IH l). lia.
Qed.

(** C6.  A poll that reports ['completed'] ends the job as a success
    whatever the reported [errors] are: polling stops, the success
    toast appears and no error toast, and no function of the API
    service is called, so nothing is processed again.  The results
    shown give [successful_indexes] as [current] minus the number of
    errors and [failed_urls] as the reported errors, of which the page
    lists the first ten.  No [catch] block calls the service either: a
    failed request is not retried. *)
Theorem completed_job_keeps_row_failures :
  (forall closure st p,
      CSVUpload.status p = "completed" ->
      let after := UI.resume (CSVUpload.poll_settled (JS.Resolved p)) closure st in
      let successCount :=
        CSVUpload.current p - Z.of_nat (length (CSVUpload.errors p)) in
      snd after
      = [UI.clearInterval;
         UI.toast_success ("Successfully indexed "
                           ++ JS.string_of_Z successCount ++ " images!")] /\
      existsb UI.is_call (snd after) = false /\
      CSVUpload.isUploading (fst after) = false /\
      exists r,
        CSVUpload.uploadResults (fst after) = Some r /\
        CSVUpload.total_urls r = CSVUpload.total p /\
        CSVUpload.successful_indexes r = successCount /\
        CSVUpload.failed_urls r = CSVUpload.errors p /\
        CSVUpload.listed_failed_urls r = firstn 10 (CSVUpload.errors p) /\
        (length (CSVUpload.listed_failed_urls r) <= 10)%nat) /\
  (forall closure st message,
      existsb UI.is_call
        (snd (UI.resume (CSVUpload.poll_settled (JS.Rejected message))
                        closure st)) = false) /\
  (forall closure st message,
      existsb UI.is_call
        (snd (UI.resume (CSVUpload.handleUpload_settled (JS.Rejected message))
                        closure st)) = false) /\
  (forall closure st message,
      existsb UI.is_call
        (snd (UI.resume (ImageUpload.handleSearch_settled (JS.Rejected message))
                        closure st)) = false) /\
  (forall closure st message,
      existsb UI.is_call
        (snd (UI.resume (TextSearch.handleSearch_settled (JS.Rejected message))
                        closure st)) = false).
Proof.
  split; [|repeat split].
  intros closure st p Hs.
  unfold UI.resume, CSVUpload.poll_settled, CSVUpload.terminal.
  rewrite Hs. simpl.
  repeat split.
  eexists. repeat split. apply firstn_length_le.
Qed.

Lemma completed_job_keeps_row_failures_witness :
  let p := {| CSVUpload.status := "completed"; CSVUpload.current := 3;
              CSVUpload.total := 3; CSVUpload.current_url := None;
              CSVUpload.errors := ["http://img.example/broken.png"] |} in
  let after :=
    UI.resume (CSVUpload.poll_settled (JS.Resolved p))
              CSVUpload.initial CSVUpload.initial in
  snd after = [UI.clearInterval;
               UI.toast_success "Successfully indexed 2 images!"] /\
  option_map CSVUpload.failed_urls (CSVUpload.uploadResults (fst after))
  = Some ["http://img.example/broken.png"].
Proof.
  destruct completed_job_keeps_row_failures as (H & _).
  destruct (H CSVUpload.initial CSVUpload.initial
              {| CSVUpload.status := "completed"; CSVUpload.current := 3;
                 CSVUpload.total := 3; CSVUpload.current_url := None;
                 CSVUpload.errors := ["http://img.example/broken.png"] |}
              eq_refl) as (Hlog & _ & _ & r & Hr & _ & _ & Hf & _).
  split.
  - exact Hlog.
  - cbv zeta. rewrite Hr. simpl. now rewrite Hf.
Defined.

(** ** The progress bar *)

(** *** Binary digits and right shifts *)

(** [digits2_pos p] is the length of [p] in binary. *)
Lemma digits2_bounds (p : positive) :
  2 ^ (Zpos (digits2_pos p) - 1) <= Zpos p < 2 ^ Zpos (digits2_pos p).
Proof.
  induction p as [p IH|p IH|]; simpl digits2_pos.
  - rewrite Pos2Z.inj_succ.
    replace (Z.succ (Zpos (digits2_pos p)) - 1) with (Z.succ (Zpos (digits2_pos p) - 1)) by lia.
    rewrite !Z.pow_succ_r; lia.
  - rewrite Pos2Z.inj_succ.
    replace (Z.succ (Zpos (digits2_pos p)) - 1) with (Z.succ (Zpos (digits2_pos p) - 1)) by lia.
    rewrite !Z.pow_succ_r; lia.
  - simpl. lia.
Qed.

Lemma digits2_le (p : positive) (k : Z) :
  Zpos p < 2 ^ k -> Zpos (digits2_pos p) <= k.
Proof.
  intros H. destruct (digits2_bounds p) as [Hl _].
  destruct (Z_lt_le_dec k (Zpos (digits2_pos p))) as [Hk|Hk]; [|exact Hk].
  exfalso.
  assert (0 <= k).
  { destruct (Z_lt_le_dec k 0); [|lia]. rewrite Z.pow_neg_r in H by lia. lia. }
  assert (2 ^ k <= 2 ^ (Zpos (digits2_pos p) - 1)) by (apply Z.pow_le_mono_r; lia).
  lia.
Qed.

Lemma digits2_unique (p : positive) (d : Z) :
  2 ^ (d - 1) <= Zpos p < 2 ^ d -> Zpos (digits2_pos p) = d.
Proof.
  intros [Hl Hu]. destruct (digits2_bounds p) as [Hl' Hu'].
  assert (Zpos (digits2_pos p) <= d) by now apply digits2_le.
  destruct (Z.eq_dec (Zpos (digits2_pos p)) d) as [E|E]; [exact E|exfalso].
  assert (0 < d) by lia.
  assert (2 ^ Zpos (digits2_pos p) <= 2 ^ (d - 1)) by (apply Z.pow_le_mono_r; lia).
  lia.
Qed.

(** [iter_pos] iterates, and a right shift by [n] bits divides the
    mantissa by [2^n]; the record is inexact only if bits were lost or
    the start was inexact. *)
Lemma iter_pos_nat {A : Type} (f : A -> A) (p : positive) (x : A) :
  iter_pos f p x = Nat.iter (Pos.to_nat p) f x.
Proof.
  revert x. induction p as [p IH|p IH|]; intros x; simpl iter_pos.
  - rewrite !IH, Pos2Nat.inj_xI.
    replace (S (2 * Pos.to_nat p)) with (Pos.to_nat p + (Pos.to_nat p + 1))%nat by lia.
    rewrite !Nat.iter_add. reflexivity.
  - rewrite !IH, Pos2Nat.inj_xO.
    replace (2 * Pos.to_nat p)%nat with (Pos.to_nat p + Pos.to_nat p)%nat by lia.
    rewrite Nat.iter_add. reflexivity.
  - reflexivity.
Qed.

Lemma shr_1_spec (m : Z) (r s : bool) :
  0 <= m ->
  shr_1 {| shr_m := m; shr_r := r; shr_s := s |}
  = {| shr_m := m / 2; shr_r := Z.odd m; shr_s := r || s |}.
Proof.
  intros H. rewrite <- Z.div2_div.
  destruct m as [|[p|p|]|p]; try reflexivity; lia.
Qed.

Lemma shr_iter_spec (n : nat) (m : Z) (r s : bool) :
  0 <= m ->
  let res := Nat.iter n shr_1 {| shr_m := m; shr_r := r; shr_s := s |} in
  shr_m res = m / 2 ^ Z.of_nat n /\
  (loc_of_shr_record res <> loc_Exact ->
   m mod 2 ^ Z.of_nat n <> 0 \/ (r || s) = true).
Proof.
  intros Hm. induction n as [|n IH]; cbv zeta.
  - simpl Nat.iter. simpl shr_m. rewrite Z.pow_0_r, Z.div_1_r.
    split; [reflexivity|]. intros H. right.
    destruct r, s; simpl in *; congruence.
  - cbv zeta in IH. simpl Nat.iter.
    destruct (Nat.iter n shr_1 _) as [mn rn sn] eqn:E.
    simpl in IH. destruct IH as [IHm IHl].
    assert (0 <= mn) by (rewrite IHm; apply Z.div_pos; [lia | apply Z.pow_pos_nonneg; lia]).
    rewrite shr_1_spec by assumption. simpl shr_m.
    rewrite Nat2Z.inj_succ, Z.pow_succ_r by lia.
    split.
    + rewrite IHm, Z.div_div by (try apply Z.pow_pos_nonneg; lia).
      f_equal. lia.
    + intros Hl.
      assert (Hb : Z.odd mn = true \/ (rn || sn) = true).
      { simpl in Hl. destruct (Z.odd mn), (rn || sn)%bool; auto. }
      destruct Hb as [Hb|Hb].
      * left. intros Hz.
        assert (P : 0 < 2 ^ Z.of_nat n) by (apply Z.pow_pos_nonneg; lia).
        apply Z.mod_divide in Hz; [|lia]. destruct Hz as [k Hk].
        subst m. replace (k * (2 * 2 ^ Z.of_nat n)) with ((2 * k) * 2 ^ Z.of_nat n) in IHm by ring.
        rewrite Z.div_mul in IHm by lia. subst mn.
        rewrite Z.odd_mul in Hb. discriminate.
      * destruct IHl as [IHl|IHl].
        -- destruct rn, sn; simpl in *; congruence.
        -- left. intros Hz. apply IHl.
           assert (P : 0 < 2 ^ Z.of_nat n) by (apply Z.pow_pos_nonneg; lia).
           apply Z.mod_divide in Hz; [|lia]. destruct Hz as [k Hk].
           apply Z.mod_divide; [lia|]. exists (k * 2). lia.
        -- right. exact IHl.
Qed.

Lemma record_of_loc_m (m : Z) (l : location) : shr_m (shr_record_of_loc m l) = m.
Proof. destruct l as [|[]]; reflexivity. Qed.

Lemma loc_of_record_of_loc (m : Z) (l : location) :
  loc_of_shr_record (shr_record_of_loc m l) = l.
Proof. destruct l as [|[]]; reflexivity. Qed.

Lemma shr_spec (m : Z) (l : location) (e n : Z) :
  0 <= m ->
  let k := Z.max n 0 in
  snd (shr (shr_record_of_loc m l) e n) = e + k /\
  shr_m (fst (shr (shr_record_of_loc m l) e n)) = m / 2 ^ k /\
  (loc_of_shr_record (fst (shr (shr_record_of_loc m l) e n)) <> loc_Exact ->
   m mod 2 ^ k <> 0 \/ l <> loc_Exact).
Proof.
  intros Hm k. destruct n as [|p|p]; simpl shr; simpl fst; simpl snd.
  - subst k. simpl Z.max. rewrite Z.pow_0_r, Z.div_1_r, record_of_loc_m, loc_of_record_of_loc.
    repeat split; try lia. intros H. right. exact H.
  - subst k. replace (Z.max (Zpos p) 0) with (Zpos p) by lia.
    rewrite iter_pos_nat. rewrite <- (positive_nat_Z p).
    split; [rewrite positive_nat_Z; reflexivity|].
    destruct l as [|[]]; simpl shr_record_of_loc;
      match goal with |- context [Nat.iter ?n shr_1 {| shr_m := m; shr_r := ?r; shr_s := ?s |}] =>
        destruct (shr_iter_spec n m r s Hm) as [H1 H2] end;
      (split; [exact H1|]); intros H; destruct (H2 H) as [H3|H3];
      try (left; exact H3); try discriminate; right; discriminate.
  - subst k. simpl Z.max. rewrite Z.pow_0_r, Z.div_1_r, record_of_loc_m, loc_of_record_of_loc.
    repeat split; try lia. intros H. right. exact H.
Qed.

Lemma round_nearest_even_spec (m : Z) (l : location) :
  m <= round_nearest_even m l <= m + 1 /\
  (l = loc_Exact -> round_nearest_even m l = m).
Proof.
  destruct l as [|[]]; simpl; try destruct (Z.even m); split; try lia; try reflexivity;
    discriminate.
Qed.

Lemma Zdigits2_le (m k : Z) : 0 <= m < 2 ^ k -> 0 <= k -> Zdigits2 m <= k.
Proof.
  intros [H0 H1] Hk. destruct m as [|p|p]; simpl; try lia.
  now apply digits2_le.
Qed.

(** *** Rounding

    Rounding a non-negative value that is at most the integer [B] gives
    a double that is at most [B]: [B] is representable at every exponent
    the rounding can choose, and a value rounds up only when it is
    inexact. *)
Lemma pow2_split (a b : Z) : 0 <= a -> 0 <= b -> 2 ^ (a + b) = 2 ^ a * 2 ^ b.
Proof. intros. apply Z.pow_add_r; assumption. Qed.

Lemma binary_round_aux_at_most (B mx ex : Z) (lx : location) :
  0 < B < 2 ^ 53 -> 0 <= mx -> ex <= 0 ->
  mx <= B * 2 ^ (- ex) ->
  (mx = B * 2 ^ (- ex) -> lx = loc_Exact) ->
  CSVUpload.at_most B (binary_round_aux CSVUpload.prec CSVUpload.emax false mx ex lx).
Proof.
  intros HB Hmx Hex H1 H2.
  unfold binary_round_aux, shr_fexp.
  set (n := fexp CSVUpload.prec CSVUpload.emax (Zdigits2 mx + ex) - ex).
  destruct (shr_spec mx lx ex n Hmx) as (He' & Hm' & Hl').
  destruct (shr (shr_record_of_loc mx lx) ex n) as [mrs' e'].
  simpl fst in *; simpl snd in *.
  set (k := Z.max n 0) in *.
  assert (Px : 0 < 2 ^ (- ex)) by (apply Z.pow_pos_nonneg; lia).
  assert (Dx : Zdigits2 mx <= 53 - ex).
  { apply Zdigits2_le; [|lia]. split; [lia|].
    replace (53 - ex) with (53 + - ex) by lia. rewrite pow2_split by lia. nia. }
  assert (Hk : 0 <= k) by lia.
  assert (Hn : n <= - ex).
  { subst n. unfold fexp, emin, CSVUpload.prec, CSVUpload.emax. lia. }
  assert (He0 : e' <= 0) by lia.
  assert (Pe : 0 < 2 ^ (- e')) by (apply Z.pow_pos_nonneg; lia).
  assert (Pk : 0 < 2 ^ k) by (apply Z.pow_pos_nonneg; lia).
  assert (Sx : 2 ^ (- ex) = 2 ^ (- e') * 2 ^ k).
  { rewrite <- pow2_split by lia. f_equal. lia. }
  destruct (round_nearest_even_spec (shr_m mrs') (loc_of_shr_record mrs')) as [R1 R2].
  set (m1 := round_nearest_even (shr_m mrs') (loc_of_shr_record mrs')) in *.
  assert (Hq : shr_m mrs' <= B * 2 ^ (- e')).
  { rewrite Hm'. apply Z.div_le_upper_bound; [lia|]. rewrite Sx in H1. lia. }
  assert (Hq0 : 0 <= shr_m mrs').
  { rewrite Hm'. apply Z.div_pos; lia. }
  assert (Hm1 : 0 <= m1 <= B * 2 ^ (- e')).
  { split; [lia|].
    destruct (Z.eq_dec (shr_m mrs') (B * 2 ^ (- e'))) as [E|E]; [|lia].
    assert (Ex : mx = B * 2 ^ (- ex)).
    { pose proof (Z.mul_div_le mx (2 ^ k) Pk) as L. rewrite <- Hm', E in L.
      rewrite Sx in *. lia. }
    assert (Lx : loc_of_shr_record mrs' = loc_Exact).
    { destruct (loc_of_shr_record mrs') eqn:EL; [reflexivity|exfalso].
      destruct Hl' as [Hl'|Hl']; [discriminate| |].
      - apply Hl'. rewrite Ex, Sx.
        replace (B * (2 ^ (- e') * 2 ^ k)) with ((B * 2 ^ (- e')) * 2 ^ k) by ring.
        apply Z_mod_mult.
      - apply Hl'. exact (H2 Ex). }
    rewrite (R2 Lx). lia. }
  clearbody m1.
  set (n2 := fexp CSVUpload.prec CSVUpload.emax (Zdigits2 m1 + e') - e').
  destruct (shr_spec m1 loc_Exact e' n2 (proj1 Hm1)) as (He'' & Hm'' & _).
  destruct (shr (shr_record_of_loc m1 loc_Exact) e' n2) as [mrs'' e''].
  simpl fst in *; simpl snd in *.
  set (k2 := Z.max n2 0) in *.
  assert (D1 : Zdigits2 m1 <= 53 - e').
  { apply Zdigits2_le; [|lia]. split; [lia|].
    replace (53 - e') with (53 + - e') by lia. rewrite pow2_split by lia. nia. }
  assert (Hn2 : n2 <= - e').
  { subst n2. unfold fexp, emin, CSVUpload.prec, CSVUpload.emax. lia. }
  assert (He0' : e'' <= 0) by lia.
  assert (Pe' : 0 < 2 ^ (- e'')) by (apply Z.pow_pos_nonneg; lia).
  assert (Pk2 : 0 < 2 ^ k2) by (apply Z.pow_pos_nonneg; lia).
  assert (S1 : 2 ^ (- e') = 2 ^ (- e'') * 2 ^ k2).
  { rewrite <- pow2_split by lia. f_equal. lia. }
  assert (Hq2 : 0 <= shr_m mrs'' <= B * 2 ^ (- e'')).
  { rewrite Hm''. split; [apply Z.div_pos; lia|].
    apply Z.div_le_upper_bound; [lia|]. rewrite S1 in Hm1. lia. }
  destruct (shr_m mrs'') as [|m|m]; [exact I| |lia].
  assert (L : (e'' <=? CSVUpload.emax - CSVUpload.prec) = true)
    by (apply Z.leb_le; unfold CSVUpload.emax, CSVUpload.prec; lia).
  rewrite L. unfold CSVUpload.at_most. split; [lia|]. lia.
Qed.

(** *** The double of a count

    A positive integer below [2^53] is represented exactly, with a
    53-bit mantissa. *)
Lemma iter_xO (p q : positive) : Zpos (Pos.iter xO p q) = Zpos p * 2 ^ Zpos q.
Proof.
  induction q as [|q IH] using Pos.peano_ind.
  - simpl. lia.
  - rewrite Pos.iter_succ, Pos2Z.inj_succ, Z.pow_succ_r by lia.
    rewrite Pos2Z.inj_xO, IH. ring.
Qed.

Lemma binary_round_aux_exact (m : positive) (e : Z) :
  Zpos (digits2_pos m) = 53 -> -1074 <= e <= 971 ->
  binary_round_aux CSVUpload.prec CSVUpload.emax false (Zpos m) e loc_Exact = S754_finite false m e.
Proof.
  intros Hd He. unfold binary_round_aux, shr_fexp.
  cbn [Zdigits2]. rewrite Hd.
  replace (fexp CSVUpload.prec CSVUpload.emax (53 + e) - e) with 0
    by (unfold fexp, emin, CSVUpload.prec, CSVUpload.emax; lia).
  cbn [shr shr_record_of_loc shr_m loc_of_shr_record round_nearest_even Zdigits2].
  rewrite Hd.
  replace (fexp CSVUpload.prec CSVUpload.emax (53 + e) - e) with 0
    by (unfold fexp, emin, CSVUpload.prec, CSVUpload.emax; lia).
  cbn [shr shr_record_of_loc shr_m].
  assert (L : (e <=? CSVUpload.emax - CSVUpload.prec) = true) by (apply Z.leb_le; unfold CSVUpload.emax, CSVUpload.prec; lia).
  rewrite L. reflexivity.
Qed.

Lemma number_safe (z : Z) :
  0 < z < 2 ^ 53 ->
  exists m e,
    CSVUpload.number z = S754_finite false m e /\
    e = Zdigits2 z - 53 /\ e <= 0 /\
    Zpos m = z * 2 ^ (- e) /\
    Zpos (digits2_pos m) = 53.
Proof.
  intros [H0 H1]. destruct z as [|p|p]; try lia.
  pose proof (digits2_bounds p) as [Dl Du].
  assert (Dd : Zpos (digits2_pos p) <= 53) by now apply digits2_le.
  unfold CSVUpload.number, binary_normalize, binary_round, shl_align.
  simpl Zdigits2.
  replace (fexp CSVUpload.prec CSVUpload.emax (Zpos (digits2_pos p) + 0)) with (Zpos (digits2_pos p) - 53)
    by (unfold fexp, emin, CSVUpload.prec, CSVUpload.emax; lia).
  rewrite Z.sub_0_r.
  destruct (Zpos (digits2_pos p) - 53) as [|q|q] eqn:E; try lia.
  - exists p, 0. rewrite binary_round_aux_exact by lia.
    repeat split; try lia.
  - assert (Hm : Zpos (Pos.iter xO p q) = Zpos p * 2 ^ Zpos q) by apply iter_xO.
    assert (Hd : Zpos (digits2_pos (Pos.iter xO p q)) = 53).
    { apply digits2_unique. rewrite Hm.
      assert (P : 0 < 2 ^ Zpos q) by (apply Z.pow_pos_nonneg; lia).
      assert (A1 : 2 ^ (53 - 1) = 2 ^ (Zpos (digits2_pos p) - 1) * 2 ^ Zpos q)
        by (rewrite <- pow2_split by lia; f_equal; lia).
      assert (A2 : 2 ^ 53 = 2 ^ Zpos (digits2_pos p) * 2 ^ Zpos q)
        by (rewrite <- pow2_split by lia; f_equal; lia).
      rewrite A1, A2. nia. }
    exists (Pos.iter xO p q), (Zneg q).
    rewrite binary_round_aux_exact by (try exact Hd; lia).
    repeat split; try lia. exact Hm.
Qed.

Lemma number_0 : CSVUpload.number 0 = S754_zero false.
Proof. reflexivity. Qed.

Lemma number_100 : CSVUpload.number 100 = S754_finite false 7036874417766400 (-46).
Proof. vm_compute. reflexivity. Qed.

(** *** The quotient, the product and the rounded percentage *)

Lemma new_location_0 (b : Z) : new_location b 0 = loc_Exact.
Proof.
  unfold new_location, new_location_even, new_location_odd.
  destruct (Z.even b); reflexivity.
Qed.

Lemma divide_at_most (c t : Z) :
  0 < c <= t -> t < 2 ^ 53 ->
  CSVUpload.at_most 1 (CSVUpload.divide (CSVUpload.number c) (CSVUpload.number t)).
Proof.
  intros [Hc Hct] Ht.
  destruct (number_safe c) as (mc & ec & Nc & Ec & Ec0 & Mc & Dc); [lia|].
  destruct (number_safe t) as (mt & et & Nt & Et & Et0 & Mt & Dt); [lia|].
  rewrite Nc, Nt. unfold CSVUpload.divide, SFdiv, SFdiv_core_binary. simpl Zdigits2.
  rewrite Dc, Dt.
  assert (Hd : Zdigits2 c <= Zdigits2 t).
  { destruct c as [|pc|pc], t as [|pt|pt]; try lia. simpl.
    apply digits2_le. pose proof (digits2_bounds pt). lia. }
  assert (Ee : Z.min (fexp CSVUpload.prec CSVUpload.emax (53 + ec - (53 + et))) (ec - et) = ec - et - 53).
  { assert (1 <= Zdigits2 c) by (destruct c; simpl; lia).
    unfold fexp, emin, CSVUpload.prec, CSVUpload.emax. lia. }
  rewrite Ee.
  replace (ec - et - (ec - et - 53)) with 53 by lia.
  rewrite Z.shiftl_mul_pow2 by lia.
  pose proof (Z_div_mod (Zpos mc * 2 ^ 53) (Zpos mt) eq_refl) as DM.
  destruct (Z.div_eucl (Zpos mc * 2 ^ 53) (Zpos mt)) as [q r].
  destruct DM as [DM Hr]. simpl xorb.
  set (T := 2 ^ (- (ec - et - 53))).
  assert (PT : 0 < T) by (apply Z.pow_pos_nonneg; lia).
  assert (Ha : Zpos mc * 2 ^ 53 <= Zpos mt * T).
  { assert (A : 2 ^ (- et) * T = 2 ^ (- ec) * 2 ^ 53).
    { unfold T. rewrite <- !pow2_split by lia. f_equal. lia. }
    assert (0 < 2 ^ (- ec) * 2 ^ 53)
      by (apply Z.mul_pos_pos; apply Z.pow_pos_nonneg; lia).
    rewrite Mc, Mt.
    replace (t * 2 ^ (- et) * T) with (t * (2 ^ (- et) * T)) by ring.
    rewrite A. rewrite <- Z.mul_assoc. nia. }
  apply binary_round_aux_at_most.
  - split; reflexivity.
  - nia.
  - lia.
  - fold T. nia.
  - fold T. intros Eq. assert (r = 0) by nia. subst r. apply new_location_0.
Qed.

Lemma times_100_at_most (f : spec_float) :
  CSVUpload.at_most 1 f -> CSVUpload.at_most 100 (CSVUpload.times f (CSVUpload.number 100)).
Proof.
  rewrite number_100. destruct f as [s|s| |[|] m e]; unfold CSVUpload.at_most; try contradiction.
  - intros _. exact I.
  - intros [He Hm]. unfold CSVUpload.times, SFmul. simpl xorb.
    assert (P : 0 < 2 ^ (- e)) by (apply Z.pow_pos_nonneg; lia).
    assert (S : 2 ^ (- (e + -46)) = 2 ^ (- e) * 2 ^ 46).
    { rewrite <- pow2_split by lia. f_equal. lia. }
    assert (M : 7036874417766400 = 100 * 2 ^ 46) by reflexivity.
    apply binary_round_aux_at_most.
    + split; reflexivity.
    + lia.
    + lia.
    + rewrite S, Pos2Z.inj_mul, M. nia.
    + reflexivity.
Qed.

Lemma Math_round_at_most (f : spec_float) :
  CSVUpload.at_most 100 f -> exists n, CSVUpload.Math_round f = Some n /\ 0 <= n <= 100.
Proof.
  destruct f as [s|s| |[|] m e]; unfold CSVUpload.at_most; try contradiction.
  - intros _. exists 0. split; [reflexivity|lia].
  - intros [He Hm]. unfold CSVUpload.Math_round. eexists. split; [reflexivity|].
    destruct (Z.leb_spec 0 e) as [L|L].
    + replace e with 0 in * by lia. change (2 ^ (- 0)) with 1 in Hm. lia.
    + assert (P : 0 < 2 ^ (- e)) by (apply Z.pow_pos_nonneg; lia).
      replace (1 - e) with (Z.succ (- e)) by lia.
      rewrite Z.pow_succ_r by lia.
      split.
      * apply Z.div_pos; lia.
      * assert ((2 * Zpos m + 2 ^ (- e)) / (2 * 2 ^ (- e)) < 101); [|lia].
        apply Z.div_lt_upper_bound; lia.
Qed.

Lemma percentage_bounds (c t : Z) :
  0 <= c <= t -> 0 < t < 2 ^ 53 ->
  exists n,
    CSVUpload.Math_round (CSVUpload.times (CSVUpload.divide (CSVUpload.number c) (CSVUpload.number t)) (CSVUpload.number 100)) = Some n /\
    0 <= n <= 100.
Proof.
  intros Hc Ht. apply Math_round_at_most, times_100_at_most.
  destruct (Z.eq_dec c 0) as [->|Hn].
  - destruct (number_safe t Ht) as (m & e & N & _). rewrite N. exact I.
  - apply divide_at_most; lia.
Qed.

(** *** A count that is not 0 is not a zero double *)

Lemma shr_keeps_positive (m e : Z) (l : location) :
  0 < m -> -1074 <= e ->
  let n := fexp CSVUpload.prec CSVUpload.emax (Zdigits2 m + e) - e in
  0 < shr_m (fst (shr (shr_record_of_loc m l) e n)) /\
  -1074 <= snd (shr (shr_record_of_loc m l) e n).
Proof.
  intros Hm He n.
  destruct (shr_spec m l e n) as (He' & Hm' & _); [lia|].
  rewrite He', Hm'. split; [|lia].
  destruct m as [|p|p]; try lia.
  pose proof (digits2_bounds p) as [Dl _].
  assert (Hn : Z.max n 0 <= Zpos (digits2_pos p) - 1).
  { subst n. simpl Zdigits2. unfold fexp, emin, CSVUpload.prec, CSVUpload.emax. lia. }
  assert (P : 0 < 2 ^ Z.max n 0) by (apply Z.pow_pos_nonneg; lia).
  assert (L : 2 ^ Z.max n 0 <= 2 ^ (Zpos (digits2_pos p) - 1))
    by (apply Z.pow_le_mono_r; lia).
  assert (1 <= Zpos p / 2 ^ Z.max n 0); [|lia].
  apply Z.div_le_lower_bound; lia.
Qed.

Lemma binary_round_aux_nonzero (sx : bool) (m e : Z) (l : location) (s : bool) :
  0 < m -> -1074 <= e ->
  binary_round_aux CSVUpload.prec CSVUpload.emax sx m e l <> S754_zero s.
Proof.
  intros Hm He. unfold binary_round_aux, shr_fexp.
  destruct (shr_keeps_positive m e l Hm He) as [H1 H2].
  destruct (shr (shr_record_of_loc m l) e _) as [mrs' e'].
  simpl fst in *; simpl snd in *.
  destruct (round_nearest_even_spec (shr_m mrs') (loc_of_shr_record mrs')) as [R _].
  destruct (shr_keeps_positive (round_nearest_even (shr_m mrs') (loc_of_shr_record mrs'))
              e' loc_Exact) as [H3 _]; [lia|lia|].
  destruct (shr (shr_record_of_loc _ loc_Exact) e' _) as [mrs'' e''].
  simpl fst in *.
  destruct (shr_m mrs'') as [|p|p]; try lia.
  destruct (e'' <=? CSVUpload.emax - CSVUpload.prec); discriminate.
Qed.

Lemma number_nonzero (z : Z) (s : bool) : z <> 0 -> CSVUpload.number z <> S754_zero s.
Proof.
  intros Hz. unfold CSVUpload.number, binary_normalize.
  destruct z as [|p|p]; [contradiction| |];
    unfold binary_round, shl_align;
    destruct (fexp CSVUpload.prec CSVUpload.emax (Zpos (digits2_pos p) + 0) - 0) eqn:E;
    apply binary_round_aux_nonzero; try lia;
    unfold fexp, emin, CSVUpload.prec, CSVUpload.emax in *; lia.
Qed.

Lemma number_is_zero (z : Z) :
  CSVUpload.strict_equal (CSVUpload.number z) (CSVUpload.number 0) = true <-> z = 0.
Proof.
  unfold CSVUpload.strict_equal. split.
  - intros H. destruct (Z.eq_dec z 0) as [E|E]; [exact E|exfalso].
    pose proof (fun s => number_nonzero z s E) as N.
    rewrite number_0 in H.
    destruct (CSVUpload.number z) as [s|s| |s m e]; try discriminate.
    + exact (N s eq_refl).
    + destruct s; discriminate.
    + destruct s; discriminate.
  - intros ->. reflexivity.
Qed.



(** The result is the rounding of the double, not of the exact
    quotient: [(23 / 40) * 100] is [57.49999999999999] and
    [(29 / 200) * 100] is [14.499999999999998]; [(1 / 8) * 100] is
    [12.5], and a half rounds up. *)
Example getProgressPercentage_rounds_the_double :
  map (fun counts : Z * Z =>
         CSVUpload.getProgressPercentage
           {| CSVUpload.selectedFile := None; CSVUpload.columnName := "url";
              CSVUpload.isUploading := true; CSVUpload.uploadResults := None;
              CSVUpload.showSettings := false;
              CSVUpload.progress :=
                Some {| CSVUpload.status := "processing";
                        CSVUpload.current := fst counts;
                        CSVUpload.total := snd counts;
                        CSVUpload.current_url := None;
                        CSVUpload.errors := [] |};
              CSVUpload.taskId := Some "task-1" |})
      [(23, 40); (29, 200); (1, 8); (2, 3); (5, 5); (0, 7); (3, 0)]
  = [Some 57; Some 14; Some 13; Some 67; Some 100; Some 0; Some 0].
Proof. vm_compute. reflexivity. Qed.


(** ** The polling loop *)

Lemma option_string_eqb_eq (a b : option string) :
  CSVUpload.option_string_eqb a b = true -> a = b.
Proof.
  destruct a as [x|], b as [y|]; simpl; try discriminate; [|reflexivity].
  intros H. apply String.eqb_eq in H. now subst.
Qed.

Lemma same_deps_effect (st st' : CSVUpload.state) :
  CSVUpload.same_deps st st' = true ->
  CSVUpload.useEffect_poll st' = CSVUpload.useEffect_poll st.
Proof.
  unfold CSVUpload.same_deps, CSVUpload.useEffect_poll.
  intros H. apply andb_true_iff in H as [Ht Hu].
  apply option_string_eqb_eq in Ht. apply Bool.eqb_prop in Hu.
  now rewrite Ht, Hu.
Qed.

Lemma commit_matches (st st' : CSVUpload.state) (rt : CSVUpload.runtime) :
  option_map CSVUpload.registered (CSVUpload.active rt)
  = CSVUpload.useEffect_poll st ->
  CSVUpload.timer_matches (CSVUpload.commit st st' rt).
Proof.
  intros H. unfold CSVUpload.timer_matches, CSVUpload.commit.
  destruct (CSVUpload.same_deps st st') eqn:E.
  - simpl. rewrite H. symmetry. now apply same_deps_effect.
  - destruct (CSVUpload.useEffect_poll st') as [i|] eqn:Ei; simpl; now rewrite Ei.
Qed.

Lemma handle_event_matches (h : UI.handler CSVUpload.state unit)
  (rt : CSVUpload.runtime) :
  CSVUpload.timer_matches rt -> CSVUpload.timer_matches (fst (CSVUpload.handle_event h rt)).
Proof.
  intros H. unfold CSVUpload.handle_event.
  destruct (UI.run h (CSVUpload.component rt)) as [st' log]. simpl.
  now apply commit_matches.
Qed.

Lemma poll_settled_clear (o : JS.outcome CSVUpload.progress_data)
  (cl st : CSVUpload.state) :
  existsb UI.is_clear (snd (UI.resume (CSVUpload.poll_settled o) cl st)) = true ->
  CSVUpload.isUploading (fst (UI.resume (CSVUpload.poll_settled o) cl st)) = false.
Proof.
  destruct o as [p|m]; unfold UI.resume, CSVUpload.poll_settled; simpl.
  - destruct (CSVUpload.terminal (CSVUpload.status p)); simpl.
    + destruct (CSVUpload.status p =? "completed")%string; reflexivity.
    + discriminate.
  - discriminate.
Qed.

Lemma not_uploading_no_effect (st : CSVUpload.state) :
  CSVUpload.isUploading st = false -> CSVUpload.useEffect_poll st = None.
Proof.
  unfold CSVUpload.useEffect_poll. intros ->.
  destruct (CSVUpload.taskId st); [now rewrite andb_false_r | reflexivity].
Qed.

Lemma step_matches (ev : CSVUpload.event) (rt : CSVUpload.runtime) :
  CSVUpload.timer_matches rt -> CSVUpload.timer_matches (fst (CSVUpload.step ev rt)).
Proof.
  intros H. destruct ev as [ms| |files| | | |text|n o|n o];
    unfold CSVUpload.step; try now apply handle_event_matches.
  - exact H.
  - destruct (CSVUpload.active rt) as [t|] eqn:E; [|exact H].
    unfold CSVUpload.timer_matches in *. rewrite E in H. exact H.
  - destruct (nth_error (CSVUpload.inflight rt) n) as [p|]; [|exact H].
    destruct (UI.resume _ _ _) as [st' log]. simpl.
    now apply commit_matches.
  - destruct (nth_error (CSVUpload.inflight rt) n) as [p|]; [|exact H].
    pose proof (poll_settled_clear o (CSVUpload.closure p) (CSVUpload.component rt)) as Hc.
    destruct (UI.resume _ _ _) as [st' log]. simpl in *.
    destruct (existsb UI.is_clear log) eqn:El; [|now apply commit_matches].
    specialize (Hc eq_refl).
    unfold CSVUpload.timer_matches, CSVUpload.commit.
    destruct (CSVUpload.same_deps (CSVUpload.component rt) st') eqn:Es; simpl.
    + rewrite (same_deps_effect _ _ Es).
      apply andb_true_iff in Es as [_ Es]. apply Bool.eqb_prop in Es.
      rewrite Hc in Es.
      unfold CSVUpload.timer_matches in H. rewrite (not_uploading_no_effect _ Es) in H.
      destruct (CSVUpload.active rt); [discriminate|].
      rewrite (not_uploading_no_effect _ Es).
      now destruct (CSVUpload.owner p).
    + destruct (CSVUpload.useEffect_poll st') as [i|] eqn:Ei; simpl; now rewrite Ei.
Qed.

Lemma reachable_matches (rt : CSVUpload.runtime) :
  CSVUpload.reachable rt -> CSVUpload.timer_matches rt.
Proof.
  induction 1 as [|ev rt _ IH _]; [reflexivity|].
  now apply step_matches.
Qed.

Lemma effect_some (st : CSVUpload.state) (i : CSVUpload.interval) :
  CSVUpload.useEffect_poll st = Some i ->
  CSVUpload.taskId st = Some (CSVUpload.polled i) /\
  CSVUpload.task_set (CSVUpload.taskId st) = true /\
  CSVUpload.isUploading st = true /\
  CSVUpload.delay i = 2000.
Proof.
  unfold CSVUpload.useEffect_poll.
  destruct (CSVUpload.taskId st) as [id|]; [|discriminate].
  destruct (CSVUpload.task_set (Some id)) eqn:Et; [|discriminate].
  destruct (CSVUpload.isUploading st); [|discriminate].
  intros [= <-]. auto.
Qed.

Lemma effect_none (st : CSVUpload.state) :
  CSVUpload.task_set (CSVUpload.taskId st) = false \/
  CSVUpload.isUploading st = false ->
  CSVUpload.useEffect_poll st = None.
Proof.
  intros [H|H]; [|now apply not_uploading_no_effect].
  unfold CSVUpload.useEffect_poll.
  destruct (CSVUpload.taskId st) as [id|]; [|reflexivity].
  now rewrite H.
Qed.

Lemma commit_due (st st' : CSVUpload.state) (rt : CSVUpload.runtime) :
  CSVUpload.timer_due rt -> CSVUpload.timer_due (CSVUpload.commit st st' rt).
Proof.
  intros H. unfold CSVUpload.timer_due, CSVUpload.commit.
  destruct (CSVUpload.same_deps st st'); [exact H|].
  destruct (CSVUpload.useEffect_poll st') as [i|] eqn:Ei; simpl; [|exact I].
  apply effect_some in Ei as (_ & _ & _ & ->). lia.
Qed.

Lemma clear_due (h : option nat) (rt : CSVUpload.runtime) st n l :
  CSVUpload.timer_due rt ->
  CSVUpload.timer_due {| CSVUpload.component := st; CSVUpload.clock := CSVUpload.clock rt;
               CSVUpload.active := CSVUpload.clear h (CSVUpload.active rt);
               CSVUpload.next_handle := n; CSVUpload.inflight := l |}.
Proof.
  unfold CSVUpload.timer_due, CSVUpload.clear; simpl.
  destruct h as [k|], (CSVUpload.active rt) as [t|]; auto.
  destruct (Nat.eqb k (CSVUpload.handle t)); simpl; auto.
Qed.

Lemma step_due (ev : CSVUpload.event) (rt : CSVUpload.runtime) :
  CSVUpload.timer_matches rt -> CSVUpload.enabled ev rt = true ->
  CSVUpload.timer_due rt -> CSVUpload.timer_due (fst (CSVUpload.step ev rt)).
Proof.
  intros Hm He H.
  destruct ev as [ms| |files| | | |text|n o|n o];
    unfold CSVUpload.step, CSVUpload.handle_event.
  - unfold CSVUpload.timer_due in *; simpl in *.
    apply andb_true_iff in He as [Hms He].
    destruct (CSVUpload.active rt) as [t|]; [|exact I].
    apply Z.leb_le in He. apply Z.ltb_lt in Hms. lia.
  - unfold CSVUpload.timer_due in *; simpl in *.
    destruct (CSVUpload.active rt) as [t|] eqn:E; [|simpl; now rewrite E].
    simpl. unfold CSVUpload.timer_matches in Hm. rewrite E in Hm. simpl in Hm.
    symmetry in Hm. apply effect_some in Hm as (_ & _ & _ & ->). lia.
  - destruct (UI.run _ _) as [st' log]. now apply commit_due.
  - destruct (UI.run _ _) as [st' log]. now apply commit_due.
  - destruct (UI.run _ _) as [st' log]. now apply commit_due.
  - destruct (UI.run _ _) as [st' log]. now apply commit_due.
  - destruct (UI.run _ _) as [st' log]. now apply commit_due.
  - destruct (nth_error (CSVUpload.inflight rt) n) as [p|]; [|exact H].
    destruct (UI.resume _ _ _) as [st' log]. now apply commit_due.
  - destruct (nth_error (CSVUpload.inflight rt) n) as [p|]; [|exact H].
    destruct (UI.resume _ _ _) as [st' log]. apply commit_due.
    destruct (existsb _ log); [now apply clear_due | exact H].
Qed.

Lemma reachable_due (rt : CSVUpload.runtime) :
  CSVUpload.reachable rt -> CSVUpload.timer_due rt.
Proof.
  induction 1 as [|ev rt Hr IH He]; [exact I|].
  apply step_due; auto using reachable_matches.
Qed.

Lemma handle_event_log (h : UI.handler CSVUpload.state unit)
  (rt : CSVUpload.runtime) :
  snd (CSVUpload.handle_event h rt) = snd (UI.run h (CSVUpload.component rt)).
Proof.
  unfold CSVUpload.handle_event.
  now destruct (UI.run h (CSVUpload.component rt)).
Qed.

Ltac no_such_action :=
  simpl; intros H;
  repeat (destruct H as [H|H]; [discriminate H|]); exact H.

Lemma handleUpload_does_not_poll (st : CSVUpload.state) (id : string) :
  ~ In (UI.call (UI.getUploadProgress id)) (snd (UI.run CSVUpload.handleUpload st)).
Proof.
  destruct st as [sf col up res shown prog tid].
  unfold UI.run, CSVUpload.handleUpload, UI.bind, UI.read; simpl.
  destruct sf; [|no_such_action].
  destruct (negb _); no_such_action.
Qed.

Lemma poll_settled_does_not_poll (o : JS.outcome CSVUpload.progress_data)
  (cl st : CSVUpload.state) (id : string) :
  ~ In (UI.call (UI.getUploadProgress id))
       (snd (UI.resume (CSVUpload.poll_settled o) cl st)).
Proof.
  destruct o as [p|m]; unfold UI.resume, CSVUpload.poll_settled; simpl;
    [|no_such_action].
  destruct (CSVUpload.terminal (CSVUpload.status p)); [|no_such_action].
  destruct (CSVUpload.status p =? "completed")%string; no_such_action.
Qed.

(** Only the interval's callback polls. *)
Lemma handlers_do_not_poll (ev : CSVUpload.event) (rt : CSVUpload.runtime)
  (id : string) :
  ev <> CSVUpload.Tick ->
  ~ In (UI.call (UI.getUploadProgress id)) (snd (CSVUpload.step ev rt)).
Proof.
  intros Hev.
  destruct ev as [ms| |files| | | |text|n o|n o]; unfold CSVUpload.step;
    rewrite ?handle_event_log.
  - no_such_action.
  - congruence.
  - destruct files; no_such_action.
  - apply handleUpload_does_not_poll.
  - no_such_action.
  - no_such_action.
  - no_such_action.
  - destruct (nth_error (CSVUpload.inflight rt) n) as [p|]; [|no_such_action].
    destruct o; no_such_action.
  - destruct (nth_error (CSVUpload.inflight rt) n) as [p|]; [|no_such_action].
    pose proof (poll_settled_does_not_poll o (CSVUpload.closure p)
                  (CSVUpload.component rt) id) as H.
    now destruct (UI.resume _ _ _).
Qed.

Lemma is_poll_in (log : list UI.action) :
  existsb UI.is_poll log = true ->
  exists id, In (UI.call (UI.getUploadProgress id)) log.
Proof.
  intros H. apply existsb_exists in H as (a & Hin & Ha).
  destruct a as [| | |[| | |id]| | | |]; try discriminate.
  now exists id.
Qed.

Lemma exec_reachable (evs : list CSVUpload.event) :
  forall rt rt' log,
    CSVUpload.reachable rt ->
    CSVUpload.exec evs rt = Some (rt', log) ->
    CSVUpload.reachable rt'.
Proof.
  induction evs as [|ev evs IH]; simpl; intros rt rt' log Hr H.
  - now inversion H; subst.
  - destruct (CSVUpload.enabled ev rt) eqn:He; [|discriminate].
    pose proof (CSVUpload.reach_step ev rt Hr He) as Hr1.
    destruct (CSVUpload.step ev rt) as [rt1 log1]. simpl in Hr1.
    destruct (CSVUpload.exec evs rt1) as [[rt2 log2]|] eqn:E; [|discriminate].
    inversion H; subst. eapply IH; eauto.
Qed.



(** The callback stops the loop on the two terminal statuses and on no
    other: then and only then it clears its interval and sets
    [isUploading] to [false]; otherwise it only records the progress. *)
Lemma poll_stops_exactly_on_terminal (cl st : CSVUpload.state)
  (p : CSVUpload.progress_data) :
  let after := UI.resume (CSVUpload.poll_settled (JS.Resolved p)) cl st in
  CSVUpload.terminal (CSVUpload.status p)
  = ((CSVUpload.status p =? "completed")%string
     || (CSVUpload.status p =? "error")%string)%bool /\
  existsb UI.is_clear (snd after) = CSVUpload.terminal (CSVUpload.status p) /\
  CSVUpload.taskId (fst after) = CSVUpload.taskId st /\
  CSVUpload.progress (fst after) = Some p /\
  (CSVUpload.terminal (CSVUpload.status p) = true ->
   CSVUpload.isUploading (fst after) = false) /\
  (CSVUpload.terminal (CSVUpload.status p) = false ->
   snd after = [] /\
   CSVUpload.isUploading (fst after) = CSVUpload.isUploading st).
Proof.
  intros after. split; [reflexivity|]. subst after.
  unfold UI.resume, CSVUpload.poll_settled; simpl.
  destruct (CSVUpload.terminal (CSVUpload.status p)) eqn:Et; simpl.
  - destruct (CSVUpload.status p =? "completed")%string; simpl;
      repeat split; discriminate.
  - repeat split; discriminate.
Qed.

(** In the mounted component: a terminal status leaves no timer, any
    other status leaves the timer as it was. *)
Lemma poll_result_and_timer (rt : CSVUpload.runtime) (n : nat)
  (p : CSVUpload.progress_data) :
  CSVUpload.reachable rt ->
  CSVUpload.enabled (CSVUpload.PollSettled n (JS.Resolved p)) rt = true ->
  let rt' := fst (CSVUpload.step (CSVUpload.PollSettled n (JS.Resolved p)) rt) in
  (CSVUpload.terminal (CSVUpload.status p) = true ->
   CSVUpload.active rt' = None /\
   CSVUpload.isUploading (CSVUpload.component rt') = false) /\
  (CSVUpload.terminal (CSVUpload.status p) = false ->
   CSVUpload.active rt' = CSVUpload.active rt /\
   CSVUpload.isUploading (CSVUpload.component rt')
   = CSVUpload.isUploading (CSVUpload.component rt)).
Proof.
  intros Hr He rt'.
  pose proof (step_matches (CSVUpload.PollSettled n (JS.Resolved p)) rt
                (reachable_matches rt Hr)) as Hm.
  fold rt' in Hm. unfold CSVUpload.timer_matches in Hm.
  assert (Hc : exists q,
             nth_error (CSVUpload.inflight rt) n = Some q /\
             CSVUpload.component rt'
             = fst (UI.resume (CSVUpload.poll_settled (JS.Resolved p))
                              (CSVUpload.closure q) (CSVUpload.component rt))).
  { subst rt'. simpl in *.
    destruct (nth_error (CSVUpload.inflight rt) n) as [q|]; [|discriminate].
    exists q. split; [reflexivity|].
    destruct (UI.resume _ _ _) as [st' log]. simpl.
    unfold CSVUpload.commit.
    destruct (CSVUpload.same_deps _ _); [reflexivity|].
    now destruct (CSVUpload.useEffect_poll st'). }
  destruct Hc as (q & Hq & Hc).
  destruct (poll_stops_exactly_on_terminal (CSVUpload.closure q)
              (CSVUpload.component rt) p) as (_ & Hclr & Htid & _ & Hstop & Hgo).
  split; intros Ht.
  - specialize (Hstop Ht). rewrite <- Hc in Hstop.
    split; [|exact Hstop].
    rewrite (not_uploading_no_effect _ Hstop) in Hm.
    now destruct (CSVUpload.active rt').
  - destruct (Hgo Ht) as [Hlog Hup]. rewrite <- Hc in Hup.
    split; [|exact Hup].
    subst rt'. simpl. rewrite Hq.
    rewrite Ht in Hclr.
    destruct (UI.resume _ _ _) as [st' log]. simpl in *.
    rewrite Hclr. unfold CSVUpload.commit.
    assert (Hs : CSVUpload.same_deps (CSVUpload.component rt) st' = true).
    { unfold CSVUpload.same_deps. rewrite Htid.
      destruct (Hgo Ht) as [_ ->]. clear.
      destruct (CSVUpload.taskId (CSVUpload.component rt)) as [x|],
        (CSVUpload.isUploading (CSVUpload.component rt));
        simpl; rewrite ?String.eqb_refl; reflexivity. }
    now rewrite Hs.
Qed.

(** C2, at the run where the code departs from it.  The first job of
    the file is polled once and reports ['completed']: the loop stops.
    [handleUpload] then starts a second job without resetting [taskId],
    as [onDrop] and [clearFile] do: while the new upload request is
    pending for two seconds, the effect polls the finished task
    again. *)
Theorem finished_task_polled_after_restart :
  let file := {| Api.name := "urls.csv"; Api.size := 120 |} in
  let completed :=
    {| CSVUpload.status := "completed"; CSVUpload.current := 3;
       CSVUpload.total := 3; CSVUpload.current_url := None;
       CSVUpload.errors := ["http://img.example/broken.png"] |} in
  let first_job :=
    [CSVUpload.Drop [file]; CSVUpload.ClickUpload;
     CSVUpload.UploadSettled 0 (JS.Resolved {| CSVUpload.task_id := Some "task-1" |});
     CSVUpload.Elapse 2000; CSVUpload.Tick;
     CSVUpload.PollSettled 0 (JS.Resolved completed)] in
  match CSVUpload.exec first_job CSVUpload.mount with
  | Some (rt1, _) =>
      CSVUpload.progress (CSVUpload.component rt1) = Some completed /\
      CSVUpload.isUploading (CSVUpload.component rt1) = false /\
      CSVUpload.active rt1 = None /\
      option_map snd
        (CSVUpload.exec
           [CSVUpload.ClickUpload; CSVUpload.Elapse 2000; CSVUpload.Tick] rt1)
      = Some [UI.call (UI.uploadCSVWithProgress file "url");
              UI.call (UI.getUploadProgress "task-1")]
  | None => False
  end.
Proof. vm_compute. repeat split. Qed.

(** How that run goes on: the stale report ends the second job on the
    page with the results of the first, and when the second task
    identifier arrives nothing polls it. *)
Example restarted_job_is_not_polled :
  let file := {| Api.name := "urls.csv"; Api.size := 120 |} in
  let completed :=
    {| CSVUpload.status := "completed"; CSVUpload.current := 3;
       CSVUpload.total := 3; CSVUpload.current_url := None;
       CSVUpload.errors := ["http://img.example/broken.png"] |} in
  let run :=
    [CSVUpload.Drop [file]; CSVUpload.ClickUpload;
     CSVUpload.UploadSettled 0 (JS.Resolved {| CSVUpload.task_id := Some "task-1" |});
     CSVUpload.Elapse 2000; CSVUpload.Tick;
     CSVUpload.PollSettled 0 (JS.Resolved completed);
     CSVUpload.ClickUpload; CSVUpload.Elapse 2000; CSVUpload.Tick;
     CSVUpload.PollSettled 1 (JS.Resolved completed);
     CSVUpload.UploadSettled 0 (JS.Resolved {| CSVUpload.task_id := Some "task-2" |})] in
  match CSVUpload.exec run CSVUpload.mount with
  | Some (rt, _) =>
      CSVUpload.taskId (CSVUpload.component rt) = Some "task-2" /\
      CSVUpload.isUploading (CSVUpload.component rt) = false /\
      CSVUpload.active rt = None /\
      CSVUpload.inflight rt = [] /\
      option_map CSVUpload.successful_indexes
                 (CSVUpload.uploadResults (CSVUpload.component rt)) = Some 2
  | None => False
  end.
Proof. vm_compute. repeat split. Qed.

(** * Further properties of the components *)

(** ** White space around what the user typed *)

Lemma trimEnd_idempotent (s : string) : JS.trimEnd (JS.trimEnd s) = JS.trimEnd s.
Proof.
  induction s as [|c s IH]; simpl; [reflexivity|].
  destruct (JS.trimEnd s) as [|d r] eqn:E.
  - destruct (JS.is_space c) eqn:Ec; simpl; [reflexivity|].
    now rewrite Ec.
  - simpl in IH. simpl. now rewrite IH.
Qed.

Lemma trimEnd_keeps_head (c : ascii) (s : string) :
  (exists r, JS.trimEnd (String c s) = String c r) \/
  (JS.is_space c = true /\ JS.trimEnd (String c s) = "").
Proof.
  simpl. destruct (JS.trimEnd s) as [|d r].
  - destruct (JS.is_space c); eauto.
  - eauto.
Qed.

(** Trimming twice is trimming once: what [trim] returns has no white
    space left at either end. *)
Lemma trim_idempotent (s : string) : JS.trim (JS.trim s) = JS.trim s.
Proof.
  unfold JS.trim.
  pose proof (trimStart_head s) as Hh.
  destruct (JS.trimStart s) as [|c t] eqn:E; [reflexivity|].
  destruct (trimEnd_keeps_head c t) as [[r Hr]|[Hc _]]; [|congruence].
  rewrite Hr. simpl JS.trimStart. rewrite Hh.
  rewrite <- Hr. apply trimEnd_idempotent.
Qed.

Lemma blank_false_trim (s : string) :
  JS.blank s = false <-> JS.trim s <> "".
Proof.
  rewrite trim_empty_iff_blank. now destruct (JS.blank s).
Qed.

Lemma truthy_trim (s : string) :
  JS.truthy (JS.Str (JS.trim s)) = negb (JS.blank s).
Proof.
  destruct (JS.blank s) eqn:E.
  - apply trim_blank in E. now rewrite E.
  - apply blank_false_trim in E. simpl.
    destruct (String.eqb_spec (JS.trim s) ""); [contradiction|reflexivity].
Qed.

(** ** The application *)

Lemma step_loading (ev : App.event) (st : App.state) :
  (App.isLoading st = true -> App.searchResults st = None) ->
  App.isLoading (App.step ev st) = true ->
  App.searchResults (App.step ev st) = None.
Proof.
  destruct ev as [b| |r]; destruct st as [res [|] tab]; cbn; auto; discriminate.
Qed.

(** X1.  While a search is loading the application holds no results
    of an earlier search; the results section and the features section
    are never rendered together, and on the two search tabs exactly one
    of them is. *)
Theorem loading_holds_no_results (st : App.state) :
  App.reachable st ->
  (App.isLoading st = true -> App.searchResults st = None) /\
  (App.shows_results st && App.shows_features st)%bool = false /\
  (App.activeTab st <> "csv" ->
   xorb (App.shows_results st) (App.shows_features st) = true).
Proof.
  intros H. split; [|split].
  - induction H as [|ev st _ IH]; [discriminate|].
    now apply step_loading.
  - unfold App.shows_results, App.shows_features.
    now destruct (App.has_results st), (App.isLoading st),
      (App.activeTab st =? "csv")%string.
  - intros Ht. apply String.eqb_neq in Ht.
    unfold App.shows_results, App.shows_features. rewrite Ht.
    now destruct (App.has_results st), (App.isLoading st).
Qed.

Lemma loading_holds_no_results_witness :
  let st := App.step App.SearchStart
              (App.step (App.SearchComplete
                           (Some {| UI.similar_images := ["a.png"];
                                    UI.file_name := "q.png";
                                    UI.file_url := "blob:q" |}))
                        App.initial) in
  App.isLoading st = true /\ App.searchResults st = None /\
  xorb (App.shows_results st) (App.shows_features st) = true.
Proof.
  intros st.
  assert (Hr : App.reachable st) by (do 2 apply App.reach_step; apply App.reach_initial).
  destruct (loading_holds_no_results st Hr) as (H1 & _ & H3).
  split; [reflexivity|]. split.
  - apply H1. reflexivity.
  - apply H3. discriminate.
Defined.

(** ** A search, from the button to the page *)

(** X2.  An image search on the image tab.  With an image selected,
    [handleSearch] tells the application and calls the service once,
    with that image; the page shows the spinner.  However the request
    settles, the loading flag is cleared and the tab is kept: a
    response with images gives the grid with one card per image, a
    response without images the empty message, and a failure removes
    the results section altogether and brings the features back. *)
Theorem image_search_outcome_on_page
  (app : App.state) (st : ImageUpload.state) (file : Api.file)
  (o : JS.outcome UI.search_results) :
  ImageUpload.selectedImage st = Some file ->
  App.activeTab app = "image" ->
  let started :=
    App.notify_all (snd (UI.run ImageUpload.handleSearch st)) app in
  let settled :=
    App.notify_all
      (snd (UI.resume (ImageUpload.handleSearch_settled o) st st)) started in
  UI.run ImageUpload.handleSearch st
  = (st, [UI.onSearchStart; UI.call (UI.uploadImageAndSearch file)]) /\
  Page.results_section started
  = Some (SearchResults.Loading "Analyzing Image...") /\
  App.shows_features started = false /\
  App.isLoading settled = false /\
  App.activeTab settled = "image" /\
  match o with
  | JS.Resolved r =>
      App.searchResults settled = Some r /\
      App.shows_features settled = false /\
      Page.results_section settled
      = Some (match UI.similar_images r with
              | [] => SearchResults.Empty
                        "No similar images found. Try uploading a different image."
              | _ :: _ => SearchResults.Grid "Similar Images Found"
                            (length (UI.similar_images r))
              end)
  | JS.Rejected _ =>
      App.searchResults settled = None /\
      App.shows_features settled = true /\
      Page.results_section settled = None
  end.
Proof.
  intros Hsel Htab.
  destruct st as [sel prev]; simpl in Hsel; subst sel.
  destruct app as [res loading tab]; simpl in Htab; subst tab.
  destruct o as [r|m]; cbn.
  - repeat split. unfold Page.results_section; cbn.
    now destruct (UI.similar_images r).
  - repeat split.
Qed.

Lemma image_search_outcome_on_page_witness :
  let st := {| ImageUpload.selectedImage :=
                 Some {| Api.name := "cat.png"; Api.size := 2048 |};
               ImageUpload.previewUrl := Some "blob:1" |} in
  let failed :=
    App.notify_all
      (snd (UI.resume (ImageUpload.handleSearch_settled (JS.Rejected "Server error: 500"))
                      st st))
      (App.notify_all (snd (UI.run ImageUpload.handleSearch st)) App.initial) in
  Page.results_section failed = None /\ App.shows_features failed = true.
Proof.
  intros st failed.
  destruct (image_search_outcome_on_page App.initial st
              {| Api.name := "cat.png"; Api.size := 2048 |}
              (JS.Rejected "Server error: 500") eq_refl eq_refl)
    as (_ & _ & _ & _ & _ & _ & Hf & Hr).
  split; [exact Hr | exact Hf].
Defined.

(** X3.  A text search on the text tab.  With a query that is not
    blank, [handleSearch] prevents the form's submission, tells the
    application and calls the service once with the trimmed query; the
    page shows the spinner.  However the request settles, the loading
    flag is cleared: a response with images gives the grid, one
    without the empty message, and a failure removes the results
    section and brings the features back. *)
Theorem text_search_outcome_on_page
  (app : App.state) (st : TextSearch.state)
  (o : JS.outcome UI.search_results) :
  JS.blank (TextSearch.query st) = false ->
  App.activeTab app = "text" ->
  let started :=
    App.notify_all (snd (UI.run TextSearch.handleSearch st)) app in
  let settled :=
    App.notify_all
      (snd (UI.resume (TextSearch.handleSearch_settled o) st st)) started in
  UI.run TextSearch.handleSearch st
  = (st, [UI.preventDefault; UI.onSearchStart;
          UI.call (UI.searchImagesByText (JS.trim (TextSearch.query st)))]) /\
  Page.results_section started
  = Some (SearchResults.Loading "Searching Images...") /\
  App.shows_features started = false /\
  App.isLoading settled = false /\
  App.activeTab settled = "text" /\
  match o with
  | JS.Resolved r =>
      App.searchResults settled = Some r /\
      App.shows_features settled = false /\
      Page.results_section settled
      = Some (match UI.similar_images r with
              | [] => SearchResults.Empty
                        "No matching images found. Try a different search query."
              | _ :: _ => SearchResults.Grid "Text Search Results"
                            (length (UI.similar_images r))
              end)
  | JS.Rejected _ =>
      App.searchResults settled = None /\
      App.shows_features settled = true /\
      Page.results_section settled = None
  end.
Proof.
  intros Hq Htab.
  destruct st as [q]; simpl in Hq.
  destruct app as [res loading tab]; simpl in Htab; subst tab.
  assert (Hrun : UI.run TextSearch.handleSearch {| TextSearch.query := q |}
                 = ({| TextSearch.query := q |},
                    [UI.preventDefault; UI.onSearchStart;
                     UI.call (UI.searchImagesByText (JS.trim q))])).
  { assert (Hn : negb (JS.truthy (JS.Str (JS.trim q))) = false)
      by (now rewrite truthy_trim, Hq).
    unfold UI.run, TextSearch.handleSearch, UI.bind, UI.read, UI.emit; simpl.
    simpl in Hn. now rewrite Hn. }
  cbv zeta. rewrite Hrun.
  destruct o as [r|m]; cbn.
  - repeat split. unfold Page.results_section; cbn.
    now destruct (UI.similar_images r).
  - repeat split.
Qed.

Lemma text_search_outcome_on_page_witness :
  let st := {| TextSearch.query := "  red sports car " |} in
  UI.run TextSearch.handleSearch st
  = (st, [UI.preventDefault; UI.onSearchStart;
          UI.call (UI.searchImagesByText "red sports car")]).
Proof.
  intros st.
  destruct (text_search_outcome_on_page
              {| App.searchResults := None; App.isLoading := false;
                 App.activeTab := "text" |}
              st (JS.Rejected "timeout") eq_refl eq_refl) as (H & _).
  exact H.
Defined.

Lemma handleSearch_calls (st : TextSearch.state) (q : string) :
  In (UI.call (UI.searchImagesByText q)) (snd (UI.run TextSearch.handleSearch st)) ->
  JS.blank (TextSearch.query st) = false /\ q = JS.trim (TextSearch.query st).
Proof.
  destruct st as [q0].
  pose proof (truthy_trim q0) as Hn.
  unfold UI.run, TextSearch.handleSearch, UI.bind, UI.read, UI.emit; simpl.
  simpl in Hn. rewrite Hn.
  destruct (JS.blank q0); simpl.
  - intros [H|[H|[]]]; discriminate.
  - intros [H|[H|[H|[]]]]; try discriminate. now inversion H.
Qed.

(** X4.  Whatever key is pressed in the query field, the service is
    called only for the Enter key, only while no search is loading and
    only with a query that is not blank; what it receives is the
    trimmed query, which is not empty and has no white space left at
    either end. *)
Theorem key_press_sends_trimmed_query
  (st : TextSearch.state) (key : string) (isLoading : bool) (q : string) :
  In (UI.call (UI.searchImagesByText q))
     (snd (UI.run (TextSearch.handleKeyPress key isLoading) st)) ->
  key = "Enter" /\ isLoading = false /\
  JS.blank (TextSearch.query st) = false /\
  q = JS.trim (TextSearch.query st) /\ q <> "" /\ JS.trim q = q.
Proof.
  unfold TextSearch.handleKeyPress.
  destruct (String.eqb_spec key "Enter") as [->|_]; simpl andb.
  - destruct isLoading; simpl negb; cbv iota.
    + simpl. tauto.
    + intros H. apply handleSearch_calls in H as [Hb ->].
      repeat split; auto.
      * now apply blank_false_trim.
      * apply trim_idempotent.
  - simpl. tauto.
Qed.

Lemma key_press_sends_trimmed_query_witness :
  JS.trim "ocean sunset" = "ocean sunset" /\ "ocean sunset" <> "".
Proof.
  destruct (key_press_sends_trimmed_query
              {| TextSearch.query := " ocean sunset  " |} "Enter" false
              "ocean sunset") as (_ & _ & _ & _ & Hne & Ht).
  - simpl. tauto.
  - split; [exact Ht | exact Hne].
Defined.

(** ** Starting a CSV job *)

Lemma handleUpload_run (st : CSVUpload.state) :
  UI.run CSVUpload.handleUpload st
  = match CSVUpload.selectedFile st with
    | None => (st, [UI.toast_error "Please select a file first"])
    | Some file =>
        if JS.blank (CSVUpload.columnName st) then
          (st, [UI.toast_error "Please specify the column name containing URLs"])
        else
          ({| CSVUpload.selectedFile := CSVUpload.selectedFile st;
              CSVUpload.columnName := CSVUpload.columnName st;
              CSVUpload.isUploading := true;
              CSVUpload.uploadResults := None;
              CSVUpload.showSettings := CSVUpload.showSettings st;
              CSVUpload.progress := None;
              CSVUpload.taskId := CSVUpload.taskId st |},
           [UI.call (UI.uploadCSVWithProgress file
                       (JS.trim (CSVUpload.columnName st)))])
    end.
Proof.
  destruct st as [sf col up res shown prog tid].
  pose proof (truthy_trim col) as Hn.
  unfold UI.run, CSVUpload.handleUpload, UI.bind, UI.read; simpl.
  destruct sf as [file|]; [|reflexivity].
  simpl. simpl in Hn. rewrite Hn.
  now destruct (JS.blank col).
Qed.

(** X5.  [handleUpload] calls the service only with a file selected
    and a column name that is not blank.  The call carries that file
    and the trimmed column name, which is not empty; it is the only
    action, and the component then shows the upload in progress with
    the results and the progress of an earlier job removed. *)
Theorem upload_request_carries_file_and_column
  (st : CSVUpload.state) (file : Api.file) (column : string) :
  In (UI.call (UI.uploadCSVWithProgress file column))
     (snd (UI.run CSVUpload.handleUpload st)) ->
  CSVUpload.selectedFile st = Some file /\
  JS.blank (CSVUpload.columnName st) = false /\
  column = JS.trim (CSVUpload.columnName st) /\
  column <> "" /\ JS.trim column = column /\
  snd (UI.run CSVUpload.handleUpload st)
  = [UI.call (UI.uploadCSVWithProgress file column)] /\
  let st' := fst (UI.run CSVUpload.handleUpload st) in
  CSVUpload.isUploading st' = true /\
  CSVUpload.uploadResults st' = None /\
  CSVUpload.progress st' = None /\
  CSVUpload.selectedFile st' = Some file /\
  CSVUpload.columnName st' = CSVUpload.columnName st.
Proof.
  rewrite handleUpload_run.
  destruct (CSVUpload.selectedFile st) as [f|] eqn:Ef;
    [|simpl; intros [H|[]]; discriminate].
  destruct (JS.blank (CSVUpload.columnName st)) eqn:Eb;
    [simpl; intros [H|[]]; discriminate|].
  simpl. intros [H|[]]. inversion H; subst.
  repeat split; auto.
  - now apply blank_false_trim.
  - apply trim_idempotent.
Qed.

Lemma upload_request_carries_file_and_column_witness :
  JS.trim "image_url" = "image_url" /\ "image_url" <> "".
Proof.
  destruct (upload_request_carries_file_and_column
              {| CSVUpload.selectedFile := Some {| Api.name := "a.csv"; Api.size := 9 |};
                 CSVUpload.columnName := " image_url ";
                 CSVUpload.isUploading := false;
                 CSVUpload.uploadResults := None;
                 CSVUpload.showSettings := true;
                 CSVUpload.progress := None;
                 CSVUpload.taskId := None |}
              {| Api.name := "a.csv"; Api.size := 9 |} "image_url")
    as (_ & _ & _ & Hne & Ht & _).
  - simpl. tauto.
  - split; [exact Ht | exact Hne].
Defined.

(** ** The mounted CSV component while a job runs *)

Lemma commit_component (st st' : CSVUpload.state) (rt : CSVUpload.runtime) :
  CSVUpload.component (CSVUpload.commit st st' rt) = st'.
Proof.
  unfold CSVUpload.commit.
  destruct (CSVUpload.same_deps st st'); [reflexivity|].
  now destruct (CSVUpload.useEffect_poll st').
Qed.

Lemma handle_event_component (h : UI.handler CSVUpload.state unit)
  (rt : CSVUpload.runtime) :
  CSVUpload.component (fst (CSVUpload.handle_event h rt))
  = fst (UI.run h (CSVUpload.component rt)).
Proof.
  unfold CSVUpload.handle_event.
  destruct (UI.run h (CSVUpload.component rt)) as [st' log]. simpl.
  apply commit_component.
Qed.

(** The state of the component after an event. *)
Lemma step_component (ev : CSVUpload.event) (rt : CSVUpload.runtime) :
  CSVUpload.component (fst (CSVUpload.step ev rt))
  = match ev with
    | CSVUpload.Elapse _ | CSVUpload.Tick => CSVUpload.component rt
    | CSVUpload.Drop files =>
        fst (UI.run (CSVUpload.onDrop files) (CSVUpload.component rt))
    | CSVUpload.ClickUpload =>
        fst (UI.run CSVUpload.handleUpload (CSVUpload.component rt))
    | CSVUpload.ClickClear =>
        fst (UI.run CSVUpload.clearFile (CSVUpload.component rt))
    | CSVUpload.ClickSettings =>
        fst (UI.run CSVUpload.toggleSettings (CSVUpload.component rt))
    | CSVUpload.TypeColumn text =>
        fst (UI.run (CSVUpload.setColumnName text) (CSVUpload.component rt))
    | CSVUpload.UploadSettled n o =>
        match nth_error (CSVUpload.inflight rt) n with
        | Some p => fst (UI.resume (CSVUpload.handleUpload_settled o)
                                   (CSVUpload.closure p) (CSVUpload.component rt))
        | None => CSVUpload.component rt
        end
    | CSVUpload.PollSettled n o =>
        match nth_error (CSVUpload.inflight rt) n with
        | Some p => fst (UI.resume (CSVUpload.poll_settled o)
                                   (CSVUpload.closure p) (CSVUpload.component rt))
        | None => CSVUpload.component rt
        end
    end.
Proof.
  destruct ev as [ms| |files| | | |text|n o|n o]; unfold CSVUpload.step;
    try apply handle_event_component.
  - reflexivity.
  - now destruct (CSVUpload.active rt).
  - destruct (nth_error (CSVUpload.inflight rt) n); [|reflexivity].
    destruct (UI.resume _ _ _). apply commit_component.
  - destruct (nth_error (CSVUpload.inflight rt) n); [|reflexivity].
    destruct (UI.resume _ _ _). apply commit_component.
Qed.

Lemma settled_upload_cells (o : JS.outcome CSVUpload.init_response)
  (cl st : CSVUpload.state) :
  let st' := fst (UI.resume (CSVUpload.handleUpload_settled o) cl st) in
  CSVUpload.selectedFile st' = CSVUpload.selectedFile st /\
  CSVUpload.columnName st' = CSVUpload.columnName st /\
  CSVUpload.uploadResults st' = CSVUpload.uploadResults st /\
  (CSVUpload.isUploading st' = true -> CSVUpload.isUploading st = true).
Proof. destruct o; cbn; auto. repeat split; discriminate. Qed.

Lemma settled_poll_cells (o : JS.outcome CSVUpload.progress_data)
  (cl st : CSVUpload.state) :
  let st' := fst (UI.resume (CSVUpload.poll_settled o) cl st) in
  CSVUpload.selectedFile st' = CSVUpload.selectedFile st /\
  CSVUpload.columnName st' = CSVUpload.columnName st /\
  (CSVUpload.isUploading st' = true ->
   CSVUpload.isUploading st = true /\
   CSVUpload.uploadResults st' = CSVUpload.uploadResults st).
Proof.
  destruct o as [p|m]; unfold UI.resume, CSVUpload.poll_settled; simpl; auto.
  destruct (CSVUpload.terminal (CSVUpload.status p)); simpl; auto.
  destruct (CSVUpload.status p =? "completed")%string; simpl;
    repeat split; discriminate.
Qed.

Lemma step_keeps_job (ev : CSVUpload.event) (rt : CSVUpload.runtime) :
  CSVUpload.enabled ev rt = true ->
  (CSVUpload.isUploading (CSVUpload.component rt) = true ->
   CSVUpload.has_file (CSVUpload.component rt) = true /\
   CSVUpload.uploadResults (CSVUpload.component rt) = None) ->
  CSVUpload.isUploading (CSVUpload.component (fst (CSVUpload.step ev rt))) = true ->
  CSVUpload.has_file (CSVUpload.component (fst (CSVUpload.step ev rt))) = true /\
  CSVUpload.uploadResults (CSVUpload.component (fst (CSVUpload.step ev rt))) = None.
Proof.
  intros He IH. rewrite step_component.
  destruct ev as [ms| |files| | | |text|n o|n o]; try exact IH.
  - (* Drop *)
    simpl in He. apply negb_true_iff in He.
    destruct files as [|f files]; [exact IH|].
    cbn. intros Hu. destruct IH as [Hf _]; [exact Hu|]. congruence.
  - (* ClickUpload *)
    simpl in He. apply andb_true_iff in He as [Hf Hu].
    rewrite handleUpload_run.
    destruct (CSVUpload.selectedFile (CSVUpload.component rt)) as [f|] eqn:Ef;
      [|exact IH].
    destruct (JS.blank _); [exact IH|].
    unfold CSVUpload.has_file. cbn. rewrite ?Ef. auto.
  - (* ClickClear *)
    simpl in He. apply andb_true_iff in He as [_ Hu]. apply negb_true_iff in Hu.
    cbn. congruence.
  - (* UploadSettled *)
    destruct (nth_error (CSVUpload.inflight rt) n) as [p|]; [|exact IH].
    destruct (settled_upload_cells o (CSVUpload.closure p) (CSVUpload.component rt))
      as (Hf & _ & Hr & Hu).
    intros H. unfold CSVUpload.has_file in *. rewrite Hf, Hr. auto.
  - (* PollSettled *)
    destruct (nth_error (CSVUpload.inflight rt) n) as [p|]; [|exact IH].
    destruct (settled_poll_cells o (CSVUpload.closure p) (CSVUpload.component rt))
      as (Hf & _ & Hu).
    intros H. destruct (Hu H) as [Hu' Hr].
    unfold CSVUpload.has_file in *. rewrite Hf, Hr. auto.
Qed.

Lemma reachable_job (rt : CSVUpload.runtime) :
  CSVUpload.reachable rt ->
  CSVUpload.isUploading (CSVUpload.component rt) = true ->
  CSVUpload.has_file (CSVUpload.component rt) = true /\
  CSVUpload.uploadResults (CSVUpload.component rt) = None.
Proof.
  induction 1 as [|ev rt _ IH He]; [discriminate|].
  now apply step_keeps_job.
Qed.



(** X7.  Whenever the upload request is rejected, in any run of the
    mounted component, the error is logged and the toast carries its
    message; [isUploading] becomes [false] and no other cell changes:
    the file, the column name, the settings panel, [taskId] and
    whatever results or progress are on the page at that moment are
    kept.  No interval is registered afterwards, and the upload button
    is enabled again while a file is selected. *)
Theorem rejected_upload_ends_upload
  (rt : CSVUpload.runtime) (n : nat) (message : string) :
  CSVUpload.reachable rt ->
  CSVUpload.enabled (CSVUpload.UploadSettled n (JS.Rejected message)) rt = true ->
  let st := CSVUpload.component rt in
  let after :=
    CSVUpload.step (CSVUpload.UploadSettled n (JS.Rejected message)) rt in
  snd after = [UI.console_error "CSV upload error:";
               UI.toast_error ("Upload failed: " ++ message)] /\
  CSVUpload.component (fst after)
  = {| CSVUpload.selectedFile := CSVUpload.selectedFile st;
       CSVUpload.columnName := CSVUpload.columnName st;
       CSVUpload.isUploading := false;
       CSVUpload.uploadResults := CSVUpload.uploadResults st;
       CSVUpload.showSettings := CSVUpload.showSettings st;
       CSVUpload.progress := CSVUpload.progress st;
       CSVUpload.taskId := CSVUpload.taskId st |} /\
  CSVUpload.active (fst after) = None /\
  CSVUpload.enabled CSVUpload.ClickUpload (fst after) = CSVUpload.has_file st.
Proof.
  intros Hr He st after.
  assert (Hm : CSVUpload.timer_matches (fst after))
    by (apply step_matches, reachable_matches, Hr).
  assert (Hc : CSVUpload.component (fst after)
               = fst (UI.resume (CSVUpload.handleUpload_settled (JS.Rejected message))
                                st st)).
  { subst after. rewrite step_component. cbn in He |- *.
    destruct (nth_error (CSVUpload.inflight rt) n) as [p|]; [|discriminate].
    reflexivity. }
  split; [|split; [|split]].
  - subst after. cbn in He |- *.
    destruct (nth_error (CSVUpload.inflight rt) n) as [p|]; [|discriminate].
    reflexivity.
  - rewrite Hc. reflexivity.
  - clearbody after. unfold CSVUpload.timer_matches in Hm. rewrite Hc in Hm.
    unfold CSVUpload.useEffect_poll in Hm. cbn in Hm.
    destruct (CSVUpload.taskId st) as [t|];
      [rewrite andb_false_r in Hm|];
      now destruct (CSVUpload.active (fst after)).
  - unfold CSVUpload.enabled, CSVUpload.has_file. rewrite Hc. cbn.
    now rewrite andb_true_r.
Qed.

Lemma rejected_upload_ends_upload_witness :
  let file := {| Api.name := "a.csv"; Api.size := 9 |} in
  let rt :=
    fst (CSVUpload.step CSVUpload.ClickUpload
           (fst (CSVUpload.step (CSVUpload.Drop [file]) CSVUpload.mount))) in
  let after :=
    fst (CSVUpload.step
           (CSVUpload.UploadSettled 0 (JS.Rejected "Server error: 500")) rt) in
  CSVUpload.component after
  = fst (UI.run (CSVUpload.onDrop [file]) CSVUpload.initial) /\
  CSVUpload.active after = None.
Proof.
  intros file rt after.
  assert (Hr : CSVUpload.reachable rt).
  { apply CSVUpload.reach_step; [|reflexivity].
    apply CSVUpload.reach_step; [|reflexivity].
    apply CSVUpload.reach_mount. }
  destruct (rejected_upload_ends_upload rt 0 "Server error: 500" Hr eq_refl)
    as (_ & Hc & Ha & _).
  split; [exact Hc | exact Ha].
Defined.

(** X8.  While a job is in progress the page keeps its file and shows
    no results of an earlier job, and nothing the user, the timer or
    the network can do changes the file or the column name of the
    job. *)
Theorem running_job_is_frozen (rt : CSVUpload.runtime) :
  CSVUpload.reachable rt ->
  CSVUpload.isUploading (CSVUpload.component rt) = true ->
  CSVUpload.has_file (CSVUpload.component rt) = true /\
  CSVUpload.uploadResults (CSVUpload.component rt) = None /\
  forall ev,
    CSVUpload.enabled ev rt = true ->
    let st' := CSVUpload.component (fst (CSVUpload.step ev rt)) in
    CSVUpload.selectedFile st' = CSVUpload.selectedFile (CSVUpload.component rt) /\
    CSVUpload.columnName st' = CSVUpload.columnName (CSVUpload.component rt).
Proof.
  intros Hr Hu. destruct (reachable_job rt Hr Hu) as [Hf Hres].
  split; [exact Hf|]. split; [exact Hres|].
  intros ev He st'. subst st'. rewrite step_component.
  destruct ev as [ms| |files| | | |text|n o|n o]; simpl in He;
    rewrite ?Hu, ?Hf, ?andb_false_r in He; try discriminate; auto.
  - destruct (nth_error (CSVUpload.inflight rt) n) as [p|]; [|auto].
    destruct (settled_upload_cells o (CSVUpload.closure p) (CSVUpload.component rt))
      as (H1 & H2 & _). auto.
  - destruct (nth_error (CSVUpload.inflight rt) n) as [p|]; [|auto].
    destruct (settled_poll_cells o (CSVUpload.closure p) (CSVUpload.component rt))
      as (H1 & H2 & _). auto.
Qed.

Lemma running_job_is_frozen_witness :
  let file := {| Api.name := "urls.csv"; Api.size := 120 |} in
  match CSVUpload.exec [CSVUpload.Drop [file]; CSVUpload.ClickUpload] CSVUpload.mount with
  | Some (rt, _) =>
      CSVUpload.uploadResults (CSVUpload.component rt) = None /\
      CSVUpload.selectedFile
        (CSVUpload.component
           (fst (CSVUpload.step
                   (CSVUpload.UploadSettled 0
                      (JS.Resolved {| CSVUpload.task_id := Some "task-1" |})) rt)))
      = Some file
  | None => False
  end.
Proof.
  intros file.
  destruct (CSVUpload.exec [CSVUpload.Drop [file]; CSVUpload.ClickUpload] CSVUpload.mount)
    as [[rt log]|] eqn:E; [|discriminate E].
  assert (Hr : CSVUpload.reachable rt)
    by (eapply exec_reachable; [apply CSVUpload.reach_mount | exact E]).
  vm_compute in E. inversion E as [[Hrt Hlog]]. subst rt log.
  destruct (running_job_is_frozen _ Hr eq_refl) as (_ & Hres & Hfrozen).
  split; [exact Hres|].
  destruct (Hfrozen (CSVUpload.UploadSettled 0
                       (JS.Resolved {| CSVUpload.task_id := Some "task-1" |}))
                    eq_refl) as [Hfile _].
  exact Hfile.
Defined.

(** X9.  An upload that was accepted without a task identifier never
    ends.  Once the request has resolved, with [isUploading] still
    [true], no task identifier set and no request pending, no timer
    runs, the only thing that can happen is that time passes, and the
    component stays exactly as it is. *)
Theorem upload_without_task_id_is_stuck (rt : CSVUpload.runtime) :
  CSVUpload.reachable rt ->
  CSVUpload.isUploading (CSVUpload.component rt) = true ->
  CSVUpload.task_set (CSVUpload.taskId (CSVUpload.component rt)) = false ->
  CSVUpload.inflight rt = [] ->
  CSVUpload.active rt = None /\
  forall ev,
    CSVUpload.enabled ev rt = true ->
    (exists ms, ev = CSVUpload.Elapse ms) /\
    let rt' := fst (CSVUpload.step ev rt) in
    CSVUpload.component rt' = CSVUpload.component rt /\
    CSVUpload.inflight rt' = [] /\
    CSVUpload.active rt' = None.
Proof.
  intros Hr Hu Ht Hfl.
  destruct (reachable_job rt Hr Hu) as [Hf _].
  assert (Ha : CSVUpload.active rt = None).
  { pose proof (reachable_matches rt Hr) as Hm.
    unfold CSVUpload.timer_matches in Hm.
    rewrite (effect_none _ (or_introl Ht)) in Hm.
    now destruct (CSVUpload.active rt). }
  split; [exact Ha|].
  intros ev He.
  destruct ev as [ms| |files| | | |text|n o|n o]; simpl in He;
    rewrite ?Hu, ?Hf, ?Ha, ?Hfl, ?andb_false_r in He; try discriminate.
  - split; [eauto|]. simpl. auto.
  - now destruct n.
  - now destruct n.
Qed.

Lemma upload_without_task_id_is_stuck_witness :
  let file := {| Api.name := "urls.csv"; Api.size := 120 |} in
  match CSVUpload.exec
          [CSVUpload.Drop [file]; CSVUpload.ClickUpload;
           CSVUpload.UploadSettled 0 (JS.Resolved {| CSVUpload.task_id := None |})]
          CSVUpload.mount with
  | Some (rt, _) =>
      CSVUpload.isUploading (CSVUpload.component rt) = true /\
      CSVUpload.active rt = None /\
      CSVUpload.enabled CSVUpload.ClickUpload rt = false /\
      CSVUpload.enabled CSVUpload.ClickClear rt = false /\
      CSVUpload.enabled CSVUpload.Tick rt = false
  | None => False
  end.
Proof.
  intros file.
  destruct (CSVUpload.exec _ CSVUpload.mount) as [[rt log]|] eqn:E;
    [|discriminate E].
  assert (Hr : CSVUpload.reachable rt)
    by (eapply exec_reachable; [apply CSVUpload.reach_mount | exact E]).
  vm_compute in E. inversion E as [[Hrt Hlog]]. subst rt log.
  destruct (upload_without_task_id_is_stuck _ Hr eq_refl eq_refl eq_refl)
    as [Ha _].
  split; [reflexivity|]. split; [exact Ha|]. repeat split.
Defined.

(** X10.  In the mounted component every poll report is stored as the
    progress.  A report of ['completed'] or ['error'] leaves no timer
    and ends the upload; a report of any other status leaves the timer
    and [isUploading] as they were, so that the next tick polls
    again. *)
Theorem poll_report_ends_or_keeps_the_loop (rt : CSVUpload.runtime) (n : nat)
  (p : CSVUpload.progress_data) :
  CSVUpload.reachable rt ->
  CSVUpload.enabled (CSVUpload.PollSettled n (JS.Resolved p)) rt = true ->
  let rt' := fst (CSVUpload.step (CSVUpload.PollSettled n (JS.Resolved p)) rt) in
  CSVUpload.progress (CSVUpload.component rt') = Some p /\
  (CSVUpload.status p = "completed" \/ CSVUpload.status p = "error" ->
   CSVUpload.active rt' = None /\
   CSVUpload.isUploading (CSVUpload.component rt') = false) /\
  (CSVUpload.status p <> "completed" -> CSVUpload.status p <> "error" ->
   CSVUpload.active rt' = CSVUpload.active rt /\
   CSVUpload.isUploading (CSVUpload.component rt')
   = CSVUpload.isUploading (CSVUpload.component rt)).
Proof.
  intros Hr He rt'.
  destruct (poll_result_and_timer rt n p Hr He) as [Hstop Hgo].
  fold rt' in Hstop, Hgo.
  split; [|split].
  - subst rt'. rewrite step_component.
    simpl in He.
    destruct (nth_error (CSVUpload.inflight rt) n) as [q|]; [|discriminate].
    now destruct (poll_stops_exactly_on_terminal (CSVUpload.closure q)
                    (CSVUpload.component rt) p) as (_ & _ & _ & H & _).
  - intros Hs. apply Hstop. unfold CSVUpload.terminal.
    destruct Hs as [-> | ->]; reflexivity.
  - intros H1 H2. apply Hgo. unfold CSVUpload.terminal.
    apply String.eqb_neq in H1, H2. now rewrite H1, H2.
Qed.

Lemma poll_report_ends_or_keeps_the_loop_witness :
  let file := {| Api.name := "urls.csv"; Api.size := 120 |} in
  let report s :=
    {| CSVUpload.status := s; CSVUpload.current := 1; CSVUpload.total := 3;
       CSVUpload.current_url := Some "http://img.example/1.png";
       CSVUpload.errors := [] |} in
  match CSVUpload.exec
          [CSVUpload.Drop [file]; CSVUpload.ClickUpload;
           CSVUpload.UploadSettled 0
             (JS.Resolved {| CSVUpload.task_id := Some "task-1" |});
           CSVUpload.Elapse 2000; CSVUpload.Tick]
          CSVUpload.mount with
  | Some (rt, _) =>
      CSVUpload.active
        (fst (CSVUpload.step
                (CSVUpload.PollSettled 0 (JS.Resolved (report "processing"))) rt))
      = CSVUpload.active rt /\
      CSVUpload.active
        (fst (CSVUpload.step
                (CSVUpload.PollSettled 0 (JS.Resolved (report "error"))) rt))
      = None
  | None => False
  end.
Proof.
  intros file report.
  destruct (CSVUpload.exec _ CSVUpload.mount) as [[rt log]|] eqn:E;
    [|discriminate E].
  assert (Hr : CSVUpload.reachable rt)
    by (eapply exec_reachable; [apply CSVUpload.reach_mount | exact E]).
  vm_compute in E. inversion E as [[Hrt Hlog]]. subst rt log.
  split.
  - destruct (poll_report_ends_or_keeps_the_loop _ 0%nat (report "processing")
                Hr eq_refl) as (_ & _ & H).
    apply H; discriminate.
  - destruct (poll_report_ends_or_keeps_the_loop _ 0%nat (report "error")
                Hr eq_refl) as (_ & H & _).
    apply H. right. reflexivity.
Defined.

(** ** The file row *)

Lemma toLowerCase_app (a b : string) :
  JSText.toLowerCase (a ++ b) = JSText.toLowerCase a ++ JSText.toLowerCase b.
Proof. induction a as [|c a IH]; simpl; [reflexivity | now rewrite IH]. Qed.

Lemma toLowerCase_length (s : string) :
  String.length (JSText.toLowerCase s) = String.length s.
Proof. induction s as [|c s IH]; simpl; [reflexivity | now rewrite IH]. Qed.

Lemma string_app_length (a b : string) :
  String.length (a ++ b) = (String.length a + String.length b)%nat.
Proof. induction a as [|c a IH]; simpl; [reflexivity | now rewrite IH]. Qed.

Lemma substring_app_skip (a b : string) (k m : nat) :
  substring (String.length a + k) m (a ++ b) = substring k m b.
Proof. induction a as [|c a IH]; simpl; [reflexivity | exact IH]. Qed.

(** Whether a name ends with a suffix is decided by its last
    characters. *)
Lemma endsWith_app (a b suffix : string) :
  (String.length suffix <= String.length b)%nat ->
  JSText.endsWith (a ++ b) suffix = JSText.endsWith b suffix.
Proof.
  intros H. unfold JSText.endsWith. rewrite string_app_length.
  replace (String.length a + String.length b - String.length suffix)%nat
    with (String.length a + (String.length b - String.length suffix))%nat by lia.
  rewrite substring_app_skip.
  destruct (Nat.leb_spec (String.length suffix) (String.length b));
    destruct (Nat.leb_spec (String.length suffix)
                (String.length a + String.length b)); try lia; reflexivity.
Qed.

Lemma endsWith_short (s suffix : string) :
  (String.length s < String.length suffix)%nat ->
  JSText.endsWith s suffix = false.
Proof.
  intros H. unfold JSText.endsWith.
  destruct (Nat.leb_spec (String.length suffix) (String.length s)); [lia|reflexivity].
Qed.

(** X11.  [getFileIcon] goes by the extension, whatever its letter
    case and whatever precedes it: [.csv] gives the document icon,
    [.xlsx] and [.xls] give the chart icon.  A name of fewer than four
    characters, the empty name included, gives the folder icon. *)
Theorem getFileIcon_by_extension (stem ext : string) :
  (JSText.toLowerCase ext = ".csv" ->
   CSVUpload.getFileIcon (stem ++ ext) = CSVUpload.Document) /\
  (JSText.toLowerCase ext = ".xlsx" \/ JSText.toLowerCase ext = ".xls" ->
   CSVUpload.getFileIcon (stem ++ ext) = CSVUpload.Chart) /\
  ((String.length stem < 4)%nat ->
   CSVUpload.getFileIcon stem = CSVUpload.Folder).
Proof.
  unfold CSVUpload.getFileIcon.
  split; [|split].
  - intros H. rewrite toLowerCase_app, H.
    now rewrite endsWith_app by (simpl; lia).
  - intros [H|H]; rewrite toLowerCase_app, H.
    + rewrite (endsWith_app _ ".xlsx" ".csv") by (simpl; lia).
      rewrite (endsWith_app _ ".xlsx" ".xlsx") by (simpl; lia).
      reflexivity.
    + rewrite (endsWith_app _ ".xls" ".csv") by (simpl; lia).
      rewrite (endsWith_app _ ".xls" ".xls") by (simpl; lia).
      simpl. now rewrite orb_true_r.
  - intros H.
    rewrite !endsWith_short by (rewrite toLowerCase_length; simpl; lia).
    reflexivity.
Qed.

Lemma getFileIcon_by_extension_witness :
  CSVUpload.getFileIcon "Product Images.CSV" = CSVUpload.Document /\
  CSVUpload.getFileIcon "catalog.Xls" = CSVUpload.Chart /\
  CSVUpload.getFileIcon "" = CSVUpload.Folder.
Proof.
  split; [|split].
  - apply (getFileIcon_by_extension "Product Images" ".CSV"). reflexivity.
  - apply (getFileIcon_by_extension "catalog" ".Xls"). right. reflexivity.
  - apply (getFileIcon_by_extension "" ""). simpl. lia.
Defined.

(** ** The list of failed URLs *)

Lemma firstn_length_min {A : Type} (n : nat) (l : list A) :
  length (firstn n l) = Nat.min n (length l).
Proof.
  revert l. induction n as [|n IH]; intros [|x l]; simpl; auto.
Qed.

(** X12.  The results section accounts for every failed URL: it lists
    the first ten in their order, and the line "... and n more", which
    is rendered exactly when there are more than ten, counts the
    rest. *)
Theorem failed_urls_are_all_accounted_for (r : CSVUpload.upload_results) :
  CSVUpload.failed_urls r
  = (CSVUpload.listed_failed_urls r ++ skipn 10 (CSVUpload.failed_urls r))%list /\
  Z.of_nat (length (CSVUpload.listed_failed_urls r))
  + match CSVUpload.more_failed_urls r with Some n => n | None => 0 end
  = Z.of_nat (length (CSVUpload.failed_urls r)) /\
  (CSVUpload.more_failed_urls r = None <->
   (length (CSVUpload.failed_urls r) <= 10)%nat) /\
  (forall n, CSVUpload.more_failed_urls r = Some n -> 0 < n).
Proof.
  unfold CSVUpload.listed_failed_urls, CSVUpload.more_failed_urls.
  split; [symmetry; apply firstn_skipn|].
  rewrite firstn_length_min.
  destruct (Nat.ltb_spec 10 (length (CSVUpload.failed_urls r))).
  - repeat split; try lia; try discriminate. intros n [= <-]. lia.
  - repeat split; try lia; discriminate.
Qed.

(** ** The image and its preview *)

Lemma blob_url_truthy (id : string) :
  JS.truthy (JS.Str (ImageUpload.blob_url id)) = true.
Proof. reflexivity. Qed.

Lemma clearImage_run (d : ImageUpload.document) :
  UI.run ImageUpload.clearImage d
  = (match ImageUpload.previewUrl (ImageUpload.cells d) with
     | Some u =>
         if JS.truthy (JS.Str u) then
           {| ImageUpload.cells :=
                {| ImageUpload.selectedImage := None;
                   ImageUpload.previewUrl := None |};
              ImageUpload.object_urls :=
                List.remove string_dec u (ImageUpload.object_urls d) |}
         else
           {| ImageUpload.cells :=
                {| ImageUpload.selectedImage := None;
                   ImageUpload.previewUrl := Some u |};
              ImageUpload.object_urls := ImageUpload.object_urls d |}
     | None =>
         {| ImageUpload.cells :=
              {| ImageUpload.selectedImage := None;
                 ImageUpload.previewUrl := None |};
            ImageUpload.object_urls := ImageUpload.object_urls d |}
     end, []).
Proof.
  destruct d as [[sel [u|]] urls];
    unfold UI.run, ImageUpload.clearImage, UI.bind, UI.read; simpl;
    [|reflexivity].
  now destruct (u =? "")%string.
Qed.

Lemma step_tidy (ev : ImageUpload.event) (d : ImageUpload.document) :
  ImageUpload.enabled ev d = true ->
  ImageUpload.tidy d -> ImageUpload.tidy (ImageUpload.step ev d).
Proof.
  destruct d as [[sel prev] urls].
  unfold ImageUpload.tidy, ImageUpload.enabled, ImageUpload.previewing,
    ImageUpload.step; simpl.
  destruct ev as [files id|]; intros He H.
  - apply andb_true_iff in He as [Hp _]. apply negb_true_iff in Hp.
    destruct prev as [u|].
    + destruct H as (_ & Hu & _). simpl in Hu. congruence.
    + destruct H as [-> ->].
      destruct files as [|f files]; cbn; [auto|].
      repeat split. discriminate.
  - destruct prev as [u|]; [|discriminate].
    destruct H as (-> & Hu & _).
    rewrite clearImage_run. cbn [ImageUpload.cells ImageUpload.previewUrl
      ImageUpload.object_urls fst]. simpl JS.truthy. rewrite Hu. simpl.
    destruct (string_dec u u); [auto | contradiction].
Qed.

Lemma reachable_tidy (d : ImageUpload.document) :
  ImageUpload.reachable d -> ImageUpload.tidy d.
Proof.
  induction 1 as [|ev d _ IH He]; [now split|]. now apply step_tidy.
Qed.

(** X13.  The preview never leaks an object URL.  In every state the
    user can reach by dropping and clearing images, the only object
    URL alive is the one of the image on show, an image is selected
    exactly when a preview is shown, and clearing the image releases
    its URL and leaves none alive. *)
Theorem preview_urls_are_released (d : ImageUpload.document) :
  ImageUpload.reachable d ->
  ImageUpload.object_urls d
  = match ImageUpload.previewUrl (ImageUpload.cells d) with
    | Some u => [u]
    | None => []
    end /\
  (ImageUpload.selectedImage (ImageUpload.cells d) = None <->
   ImageUpload.previewUrl (ImageUpload.cells d) = None) /\
  (ImageUpload.previewUrl (ImageUpload.cells d) = None <->
   ImageUpload.previewing (ImageUpload.cells d) = false) /\
  (ImageUpload.enabled ImageUpload.Clear d = true ->
   ImageUpload.step ImageUpload.Clear d = ImageUpload.loaded).
Proof.
  intros Hr.
  pose proof (reachable_tidy d Hr) as Ht.
  destruct d as [[sel prev] urls].
  unfold ImageUpload.tidy, ImageUpload.previewing, ImageUpload.enabled in *;
    simpl in *.
  destruct prev as [u|].
  - destruct Ht as (-> & Hu & Hs).
    repeat split; try discriminate; try congruence.
    intros _. unfold ImageUpload.step. rewrite clearImage_run.
    cbn [ImageUpload.cells ImageUpload.previewUrl ImageUpload.object_urls fst].
    simpl JS.truthy. rewrite Hu. simpl.
    destruct (string_dec u u); [reflexivity | contradiction].
  - destruct Ht as [-> ->]. repeat split; try discriminate.
Qed.

Lemma preview_urls_are_released_witness :
  let d := ImageUpload.step
             (ImageUpload.Drop [{| Api.name := "cat.png"; Api.size := 2048 |}] "7f3a")
             ImageUpload.loaded in
  ImageUpload.object_urls d = ["blob:7f3a"] /\
  ImageUpload.step ImageUpload.Clear d = ImageUpload.loaded.
Proof.
  intros d.
  assert (Hr : ImageUpload.reachable d)
    by (apply ImageUpload.reach_step; [apply ImageUpload.reach_loaded | reflexivity]).
  destruct (preview_urls_are_released d Hr) as (Hu & _ & _ & Hc).
  split; [exact Hu | now apply Hc].
Defined.

(** X14.  From the page, the search button always sends the image on
    show: the button exists only with a preview, an image is then
    selected, and [handleSearch] tells the application and calls the
    service with that image; its "Please select an image first" toast
    cannot appear. *)
Theorem find_similar_sends_the_image (d : ImageUpload.document) :
  ImageUpload.reachable d ->
  ImageUpload.previewing (ImageUpload.cells d) = true ->
  exists file,
    ImageUpload.selectedImage (ImageUpload.cells d) = Some file /\
    UI.run ImageUpload.handleSearch (ImageUpload.cells d)
    = (ImageUpload.cells d,
       [UI.onSearchStart; UI.call (UI.uploadImageAndSearch file)]).
Proof.
  intros Hr Hp.
  pose proof (reachable_tidy d Hr) as Ht.
  destruct d as [[sel prev] urls].
  unfold ImageUpload.tidy, ImageUpload.previewing in *; simpl in *.
  destruct prev as [u|]; [|discriminate].
  destruct Ht as (_ & _ & Hs).
  destruct sel as [file|]; [|contradiction].
  exists file. split; reflexivity.
Qed.

Lemma find_similar_sends_the_image_witness :
  let file := {| Api.name := "cat.png"; Api.size := 2048 |} in
  let d := ImageUpload.step (ImageUpload.Drop [file] "7f3a") ImageUpload.loaded in
  UI.run ImageUpload.handleSearch (ImageUpload.cells d)
  = (ImageUpload.cells d,
     [UI.onSearchStart; UI.call (UI.uploadImageAndSearch file)]).
Proof.
  intros file d.
  assert (Hr : ImageUpload.reachable d)
    by (apply ImageUpload.reach_step; [apply ImageUpload.reach_loaded | reflexivity]).
  destruct (find_similar_sends_the_image d Hr eq_refl) as (f & Hf & Hrun).
  simpl in Hf. inversion Hf; subst f. exact Hrun.
Defined.

(** ** The message of a failed request *)

Lemma string_of_Z_nonempty (z : Z) : JS.string_of_Z z <> "".
Proof.
  unfold JS.string_of_Z.
  destruct z as [|p|p]; simpl; try discriminate.
  unfold NilZero.string_of_uint.
  destruct (Pos.to_uint p); discriminate.
Qed.

Lemma ToString_empty (v : JS.value) :
  JS.truthy v = true -> JS.ToString v = "" -> v = JS.Obj "".
Proof.
  destruct v as [| |[|]|z|s|repr]; simpl; try discriminate.
  - intros _ H. now apply string_of_Z_nonempty in H.
  - intros H ->. discriminate.
  - now intros _ ->.
Qed.

Lemma or_truthy (a b : JS.value) :
  JS.truthy b = true ->
  JS.truthy (JS.or a b) = true /\ (JS.or a b = a \/ JS.or a b = b).
Proof.
  unfold JS.or. destruct (JS.truthy a) eqn:E; auto.
Qed.

(** X15.  The interceptor gives a failed request a message that is
    not empty, with one exception: a field it picks is an object whose
    string form is empty, as an empty array is.  So a toast shows
    nothing after its "... failed: " prefix only when the server sent
    such a [detail] or [message], or when a request that was never
    sent failed with such a [message]. *)
Theorem empty_error_message_needs_empty_object (error : Api.axios_error) :
  Api.response_error_interceptor error = "" ->
  (exists r d,
      Api.error_response error = Some r /\ Api.data r = Some d /\
      (Api.detail d = JS.Obj "" \/ Api.message_field d = JS.Obj "")) \/
  (Api.error_response error = None /\ Api.error_request error = false /\
   Api.error_message error = JS.Obj "").
Proof.
  unfold Api.response_error_interceptor.
  destruct (Api.error_response error) as [r|].
  - intros H. left. exists r.
    set (fallback := JS.Str ("Server error: " ++ JS.string_of_Z (Api.status r))) in H.
    assert (Hf : JS.truthy fallback = true) by reflexivity.
    destruct (or_truthy (JS.or (Api.opt_field Api.detail r)
                               (Api.opt_field Api.message_field r))
                        fallback Hf) as [Ht Hc].
    apply ToString_empty in H; [|exact Ht].
    destruct Hc as [Hc|Hc]; [|rewrite Hc in H; discriminate].
    rewrite Hc in H. unfold JS.or, Api.opt_field in H.
    destruct (Api.data r) as [d|]; [|discriminate].
    exists d. split; [reflexivity|].
    destruct (JS.truthy (Api.detail d)); auto.
  - destruct (Api.error_request error); [discriminate|].
    intros H. right.
    assert (Hf : JS.truthy (JS.Str "An unexpected error occurred") = true)
      by reflexivity.
    destruct (or_truthy (Api.error_message error) _ Hf) as [Ht Hc].
    apply ToString_empty in H; [|exact Ht].
    destruct Hc as [Hc|Hc]; rewrite Hc in H; [auto | discriminate].
Qed.

Lemma empty_error_message_needs_empty_object_witness :
  let error :=
    {| Api.error_response :=
         Some {| Api.data := Some {| Api.detail := JS.Obj "";
                                     Api.message_field := JS.Undefined |};
                 Api.status := 422 |};
       Api.error_request := true;
       Api.error_message := JS.Str "Request failed with status code 422" |} in
  Api.response_error_interceptor error = "" /\
  exists r d,
    Api.error_response error = Some r /\ Api.data r = Some d /\
    (Api.detail d = JS.Obj "" \/ Api.message_field d = JS.Obj "").
Proof.
  intros error. split; [reflexivity|].
  destruct (empty_error_message_needs_empty_object error eq_refl)
    as [H|(H & _)]; [exact H | discriminate H].
Defined.

(** ** Choosing another file *)

Lemma no_task_no_timer (rt : CSVUpload.runtime) :
  CSVUpload.timer_matches rt ->
  CSVUpload.taskId (CSVUpload.component rt) = None ->
  CSVUpload.active rt = None.
Proof.
  unfold CSVUpload.timer_matches, CSVUpload.useEffect_poll.
  intros Hm Ht. rewrite Ht in Hm.
  now destruct (CSVUpload.active rt).
Qed.

(** X16.  Dropping a file, or clearing the one selected, forgets the
    previous job: its results, its progress and its task identifier
    are removed, no upload is in progress and no timer runs.  A drop
    that brings no accepted file changes nothing. *)
Theorem choosing_a_file_forgets_the_job (rt : CSVUpload.runtime) :
  CSVUpload.reachable rt ->
  (forall files,
      CSVUpload.enabled (CSVUpload.Drop files) rt = true ->
      let rt' := fst (CSVUpload.step (CSVUpload.Drop files) rt) in
      match files with
      | [] =>
          CSVUpload.component rt' = CSVUpload.component rt /\
          CSVUpload.active rt' = CSVUpload.active rt
      | file :: _ =>
          CSVUpload.component rt'
          = {| CSVUpload.selectedFile := Some file;
               CSVUpload.columnName := CSVUpload.columnName (CSVUpload.component rt);
               CSVUpload.isUploading := false;
               CSVUpload.uploadResults := None;
               CSVUpload.showSettings := CSVUpload.showSettings (CSVUpload.component rt);
               CSVUpload.progress := None;
               CSVUpload.taskId := None |} /\
          CSVUpload.active rt' = None
      end) /\
  (CSVUpload.enabled CSVUpload.ClickClear rt = true ->
   let rt' := fst (CSVUpload.step CSVUpload.ClickClear rt) in
   CSVUpload.component rt'
   = {| CSVUpload.selectedFile := None;
        CSVUpload.columnName := CSVUpload.columnName (CSVUpload.component rt);
        CSVUpload.isUploading := false;
        CSVUpload.uploadResults := None;
        CSVUpload.showSettings := CSVUpload.showSettings (CSVUpload.component rt);
        CSVUpload.progress := None;
        CSVUpload.taskId := None |} /\
   CSVUpload.active rt' = None).
Proof.
  intros Hr.
  pose proof (reachable_matches rt Hr) as Hm.
  split.
  - intros files He rt'.
    assert (Hu : CSVUpload.isUploading (CSVUpload.component rt) = false).
    { simpl in He. apply negb_true_iff in He.
      destruct (CSVUpload.isUploading (CSVUpload.component rt)) eqn:E;
        [|reflexivity].
      destruct (reachable_job rt Hr E) as [Hf _]. congruence. }
    pose proof (step_matches (CSVUpload.Drop files) rt Hm) as Hm'.
    fold rt' in Hm'.
    destruct files as [|file files].
    + split; [subst rt'; now rewrite step_component|].
      subst rt'. unfold CSVUpload.step, CSVUpload.handle_event. cbn.
      unfold CSVUpload.commit. now rewrite same_deps_refl.
    + assert (Hc : CSVUpload.component rt'
                   = fst (UI.run (CSVUpload.onDrop (file :: files))
                                 (CSVUpload.component rt)))
        by (subst rt'; now rewrite step_component).
      split; [rewrite Hc; cbn; now rewrite Hu|].
      apply no_task_no_timer; [exact Hm'|]. now rewrite Hc.
  - intros He rt'.
    assert (Hu : CSVUpload.isUploading (CSVUpload.component rt) = false).
    { simpl in He. apply andb_true_iff in He as [_ He].
      now apply negb_true_iff in He. }
    pose proof (step_matches CSVUpload.ClickClear rt Hm) as Hm'.
    fold rt' in Hm'.
    assert (Hc : CSVUpload.component rt'
                 = fst (UI.run CSVUpload.clearFile (CSVUpload.component rt)))
      by (subst rt'; now rewrite step_component).
    split; [rewrite Hc; cbn; now rewrite Hu|].
    apply no_task_no_timer; [exact Hm'|]. now rewrite Hc.
Qed.

Lemma choosing_a_file_forgets_the_job_witness :
  let file := {| Api.name := "urls.csv"; Api.size := 120 |} in
  let completed :=
    {| CSVUpload.status := "completed"; CSVUpload.current := 3;
       CSVUpload.total := 3; CSVUpload.current_url := None;
       CSVUpload.errors := [] |} in
  match CSVUpload.exec
          [CSVUpload.Drop [file]; CSVUpload.ClickUpload;
           CSVUpload.UploadSettled 0
             (JS.Resolved {| CSVUpload.task_id := Some "task-1" |});
           CSVUpload.Elapse 2000; CSVUpload.Tick;
           CSVUpload.PollSettled 0 (JS.Resolved completed)]
          CSVUpload.mount with
  | Some (rt, _) =>
      CSVUpload.taskId (CSVUpload.component rt) = Some "task-1" /\
      CSVUpload.taskId
        (CSVUpload.component (fst (CSVUpload.step CSVUpload.ClickClear rt)))
      = None
  | None => False
  end.
Proof.
  intros file completed.
  destruct (CSVUpload.exec _ CSVUpload.mount) as [[rt log]|] eqn:E;
    [|discriminate E].
  assert (Hr : CSVUpload.reachable rt)
    by (eapply exec_reachable; [apply CSVUpload.reach_mount | exact E]).
  vm_compute in E. inversion E as [[Hrt Hlog]]. subst rt log.
  split; [reflexivity|].
  destruct (choosing_a_file_forgets_the_job _ Hr) as [_ H].
  destruct (H eq_refl) as [Hc _]. now rewrite Hc.
Defined.

Lemma failed_urls_are_all_accounted_for_witness :
  let r := {| CSVUpload.message := "Processing completed! 0/12 images indexed successfully.";
              CSVUpload.total_urls := 12; CSVUpload.successful_indexes := 0;
              CSVUpload.failed_urls :=
                ["u1"; "u2"; "u3"; "u4"; "u5"; "u6"; "u7"; "u8"; "u9"; "u10";
                 "u11"; "u12"];
              CSVUpload.processing_time := None |} in
  CSVUpload.more_failed_urls r = Some 2 /\ 0 < 2.
Proof.
  intros r. split; [reflexivity|].
  destruct (failed_urls_are_all_accounted_for r) as (_ & _ & _ & H).
  apply H. reflexivity.
Defined.
